(** * Profile scraper: the extraction engine of [scraper.js] and of its
    TypeScript sibling, embedded in Rocq.

    The two source files are alternate implementations of one engine: they walk
    the item nodes of a rendered profile page, skip nested duplicates,
    decompose loosely structured text fragments into fields and collect one
    record per surviving item.

    The browser is an external collaborator.  Everything the code asks of
    Puppeteer ([page.$$], [element.$$], [element.$], [page.evaluate], ...) is
    an operation of the class [Puppeteer] below whose outcome is either a
    value or a thrown exception.  Logging ([console.log]) and the fixed delays
    have no effect on the records and are left out. *)

From stdpp Require Import gmap strings list fin_maps sorting.

(** ** JavaScript strings

    A JavaScript string is a sequence of UTF-16 code units.  The delimiter
    [" · "] of the source is U+0020 U+00B7 U+0020. *)

Definition jsstring : Type := list N.

(** An ASCII literal of the source as a JavaScript string. *)
Definition lit (s : string) : jsstring :=
  Ascii.N_of_ascii <$> String.list_ascii_of_string s.

(** ECMAScript [WhiteSpace] and [LineTerminator] code units: what
    [String.prototype.trim] strips. *)
Definition is_white_space (c : N) : bool :=
  match c with
  | 9 | 10 | 11 | 12 | 13 | 32 | 160 | 5760
  | 8232 | 8233 | 8239 | 8287 | 12288 | 65279 => true
  | _ => (8192 <=? c) && (c <=? 8202)
  end%N.

Fixpoint trimStart (s : jsstring) : jsstring :=
  match s with
  | [] => []
  | c :: s' => if is_white_space c then trimStart s' else s
  end.

Definition trimEnd (s : jsstring) : jsstring :=
  reverse (trimStart (reverse s)).

(** [s.trim()] *)
Definition trim (s : jsstring) : jsstring := trimEnd (trimStart s).

(** [s.trim()] would change nothing. *)
Definition trimmed (s : jsstring) : Prop := trim s = s.

(** [if (text)]: a string is truthy when it is not empty. *)
Definition truthy (s : jsstring) : bool :=
  match s with [] => false | _ :: _ => true end.

(** [s.startsWith(pat)] *)
Fixpoint starts_with (pat s : jsstring) : bool :=
  match pat, s with
  | [], _ => true
  | _ :: _, [] => false
  | p :: pat', c :: s' => (p =? c)%N && starts_with pat' s'
  end.

(** [s.indexOf(pat)]: the position of the first occurrence, [None] for -1. *)
Fixpoint indexOf (pat s : jsstring) : option nat :=
  if starts_with pat s then Some 0
  else match s with
       | [] => None
       | _ :: s' => S <$> indexOf pat s'
       end.

(** [s.split(sep)] for a non-empty separator, as ECMAScript defines it: cut
    at the first occurrence, continue behind it.  Every cut consumes at least
    one code unit, so [length s] rounds are enough. *)
Fixpoint split_from (fuel : nat) (sep s : jsstring) : list jsstring :=
  match fuel with
  | 0 => [s]
  | S fuel' =>
      match indexOf sep s with
      | None => [s]
      | Some j => take j s :: split_from fuel' sep (drop (j + length sep) s)
      end
  end.

Definition split (sep s : jsstring) : list jsstring :=
  split_from (length s) sep s.

(** [l.join(sep)] *)
Fixpoint join (sep : jsstring) (l : list jsstring) : jsstring :=
  match l with
  | [] => []
  | [x] => x
  | x :: l' => x ++ sep ++ join sep l'
  end.

(** [s.replace(pat, by)] with a string pattern: only the first occurrence is
    replaced.  The source only ever replaces by the empty string, so the [$]
    patterns of a replacement string play no role. *)
Definition replace (pat by_ s : jsstring) : jsstring :=
  match indexOf pat s with
  | None => s
  | Some j => take j s ++ by_ ++ drop (j + length pat) s
  end.

(** The separators of the source. *)
Definition middle_dot : jsstring := [32; 183; 32]%N.   (* " · " *)
Definition child_combinator : jsstring := lit " > ".
Definition space : jsstring := lit " ".

(** ** JavaScript values held by a record field *)

Inductive jsval : Type :=
  | JUndefined
  | JNull
  | JBool (b : bool)
  | JNum (n : nat)
  | JStr (s : jsstring).

(** A plain object: its own enumerable keys and their values. *)
Abbreviation obj := (gmap string jsval).

(** [a[i]] on an array of strings: [undefined] out of range. *)
Definition at_index (a : list jsstring) (i : nat) : jsval :=
  match a !! i with
  | Some s => JStr s
  | None => JUndefined
  end.

(** ** Exceptions and mutable state *)

(** The outcome of an awaited call: a value, or an exception with its
    [message]. *)
Inductive result (A : Type) : Type :=
  | Ok (a : A)
  | Throw (message : jsstring).
Arguments Ok {A} a.
Arguments Throw {A} message.

#[global] Instance result_ret : MRet result := λ A a, Ok a.
#[global] Instance result_bind : MBind result := λ A B k m,
  match m with
  | Ok a => k a
  | Throw e => Throw e
  end.
#[global] Instance result_fmap : FMap result := λ A B f m,
  match m with
  | Ok a => Ok (f a)
  | Throw e => Throw e
  end.

(** Code that mutates an object or an array of type [St] and may throw.  The
    state survives an exception: what was assigned before a [throw] is still
    assigned in the [catch] block. *)
Definition Js (St A : Type) : Type := St → St * result A.

Definition ret {St A} (a : A) : Js St A := λ st, (st, Ok a).

Definition bind {St A B} (m : Js St A) (k : A → Js St B) : Js St B :=
  λ st, match m st with
        | (st', Ok a) => k a st'
        | (st', Throw e) => (st', Throw e)
        end.

(** [await call]: the call does not touch the state. *)
Definition await {St A} (call : result A) : Js St A := λ st, (st, call).

(** [try { body } catch (e) { handler }] *)
Definition try_catch {St A} (body : Js St A) (handler : jsstring → Js St A)
  : Js St A :=
  λ st, match body st with
        | (st', Throw e) => handler e st'
        | returned => returned
        end.

(** [data.key = v] *)
Definition assign (key : string) (v : jsval) : Js obj unit :=
  λ data, (<[key := v]> data, Ok tt).

(** [array.push(x)] *)
Definition push {A} (x : A) : Js (list A) unit :=
  λ array, (array ++ [x], Ok tt).

(** Reading the variable that holds the state. *)
Definition get {St} : Js St St := λ st, (st, Ok st).

Declare Scope js_scope.
Delimit Scope js_scope with js.
Notation "x <- m ;; k" := (bind m (λ x, k))
  (at level 100, m at next level, right associativity) : js_scope.
Notation "m ;; k" := (bind m (λ _, k))
  (at level 100, right associativity) : js_scope.
Local Open Scope js_scope.

(** [m] keeps [P] true of the state, whether it returns or throws. *)
Definition preserves {St A} (P : St → Prop) (m : Js St A) : Prop :=
  ∀ st, P st → P (fst (m st)).

(** The call returned. *)
Definition is_ok {A} (outcome : result A) : bool :=
  match outcome with Ok _ => true | Throw _ => false end.

(** The list a call returned, nothing when it threw. *)
Definition or_nil {A} (outcome : result (list A)) : list A :=
  match outcome with Ok l => l | Throw _ => [] end.

(** ** Occurrences of a delimiter *)

Definition occurs (pat s : jsstring) : Prop := ∃ l r, s = l ++ pat ++ r.

(** [s] is [before ++ pat ++ after] and no occurrence of [pat] starts further
    left. *)
Definition first_occurrence (pat s before after : jsstring) : Prop :=
  s = before ++ pat ++ after
  ∧ ∀ l r, s = l ++ pat ++ r → length before ≤ length l.

(** [segment] is [s] up to its first [pat], or all of [s] when it has none. *)
Definition up_to (pat s segment : jsstring) : Prop :=
  (¬ occurs pat s ∧ segment = s)
  ∨ (∃ after, first_occurrence pat s segment after).

(** ** The browser *)

(** What the engine asks of Puppeteer.  Selectors are strings. *)
Class Puppeteer (Page Node : Type) : Type := {
  (** [page.goto(url, ...)]: the page after the navigation. *)
  goto : Page → jsstring → result Page;
  (** [page.$$(selector)]: the matches, in document order. *)
  page_query_all : Page → jsstring → result (list Node);
  (** [element.$$(selector)]: the matching descendants, in document order. *)
  query_all : Node → jsstring → result (list Node);
  (** [element.$(selector)]: the first matching descendant, or [null]. *)
  query : Node → jsstring → result (option Node);
  (** [el.textContent], read inside [page.evaluate]. *)
  textContent : Node → result jsstring;
  (** The chain [el.parentElement], [el.parentElement.parentElement], ...
      as [page.evaluate] walks it, nearest first. *)
  parentElements : Node → result (list Node);
  (** [el.matches(selector)] *)
  matches : Node → jsstring → bool;
}.

(** [page.evaluate((el) => el.textContent.trim(), el)] *)
Definition evaluateText `{Puppeteer Page Node} (el : Node) : result jsstring :=
  text ← textContent el; mret (trim text).

(** * [scraper.js] *)

Module ScraperJs.

Record Selectors : Type := {
  experienceItem : jsstring;
  role : jsstring;
  companyAndDetails : jsstring;
  skills_and_description : jsstring;
}.

Record Config : Type := {
  selectors : Selectors;
  urls : list jsstring;
}.

(** The outcome [scrapeProfile] returns for one url. *)
Record ProfileResult : Type := {
  url : jsstring;
  success : bool;
  experiences : list obj;
  total_experiences : nat;
  error : option jsstring;
}.

(** The object literal every iteration starts from. *)
Definition experienceData (idx : nat) : obj :=
  <["index" := JNum idx]> (
  <["role" := JNull]> (
  <["company" := JNull]> (
  <["position" := JNull]> (
  <["duration" := JNull]> (
  <["location" := JNull]> (
  <["description" := JNull]> (
  <["skills" := JNull]> (
  <["has_children" := JBool false]> ∅)))))))).

Section scraper.
Context `{Puppeteer Page Node}.

(** The loops [for (const elem of elems)] that read the text of every
    matched sub-element and keep the truthy ones. *)
Fixpoint collectText (elems : list Node) (texts : list jsstring)
  : result (list jsstring) :=
  match elems with
  | [] => mret texts
  | elem :: rest =>
      text ← evaluateText elem;
      collectText rest (if truthy text then texts ++ [text] else texts)
  end.

(** The role block and its own [try]. *)
Definition getRole (sel : Selectors) (item : Node) : Js obj unit :=
  try_catch
    (roleElem <- await (query item (role sel)) ;;
     match roleElem with
     | Some el =>
         roleText <- await (evaluateText el) ;;
         assign "role" (JStr roleText)
     | None => ret tt
     end)
    (λ e, ret tt).

(** What the source does with [detailsText[0]]. *)
Definition decomposeCompany (companyInfo : jsstring) : Js obj unit :=
  match split middle_dot companyInfo with
  | part0 :: part1 :: _ =>                      (* parts.length >= 2 *)
      assign "company" (JStr (trim part0)) ;;
      assign "position" (JStr (trim part1))
  | _ =>
      assign "company" (JStr companyInfo) ;;
      assign "position" JNull
  end.

(** The three [if (detailsText.length >= n)] of the source. *)
Definition decomposeDetails (detailsText : list jsstring) : Js obj unit :=
  match detailsText !! 0 with                   (* length >= 1 *)
  | Some companyInfo => decomposeCompany companyInfo
  | None => ret tt
  end ;;
  match detailsText !! 1 with                   (* length >= 2 *)
  | Some duration => assign "duration" (JStr duration)
  | None => ret tt
  end ;;
  match detailsText !! 2 with                   (* length >= 3 *)
  | Some location => assign "location" (JStr location)
  | None => ret tt
  end.

Definition getDetails (sel : Selectors) (item : Node) : Js obj unit :=
  try_catch
    (detailElems <- await (query_all item (companyAndDetails sel)) ;;
     detailsText <- await (collectText detailElems []) ;;
     decomposeDetails detailsText)
    (λ e, ret tt).

(** The [if / else if / else] on [skillDescText.length]. *)
Definition decomposeDescriptionSkills (skillDescText : list jsstring)
  : Js obj unit :=
  match length skillDescText with
  | 0 =>
      assign "description" JNull ;;
      assign "skills" JNull
  | 1 =>
      assign "description" JNull ;;
      assign "skills" (at_index skillDescText 0)
  | _ =>
      assign "description" (at_index skillDescText 0) ;;
      assign "skills" (at_index skillDescText (length skillDescText - 1))
  end.

Definition getDescriptionSkills (sel : Selectors) (item : Node)
  : Js obj unit :=
  try_catch
    (skillDescElems <- await (query_all item (skills_and_description sel)) ;;
     skillDescText <- await (collectText skillDescElems []) ;;
     decomposeDescriptionSkills skillDescText)
    (λ e, ret tt).

(** The body of one iteration, inside its [try].  [true]: the record is
    pushed; [false]: the iteration ended in [continue]. *)
Definition processItem (sel : Selectors) (item : Node) : Js obj bool :=
  try_catch
    (children <- await (query_all item (experienceItem sel)) ;;
     if 1 <? length children then
       assign "has_children" (JBool true) ;;
       ret false
     else
       getRole sel item ;;
       getDetails sel item ;;
       getDescriptionSkills sel item ;;
       ret true)
    (λ e, ret true).

(** The [for] loop over [experienceItems].  [scraperStopped idx] is what the
    global flag holds when iteration [idx] reads it; the key listener sets
    the flag between two awaits, never the loop itself. *)
Fixpoint forItems (scraperStopped : nat → bool) (sel : Selectors)
    (idx : nat) (experienceItems : list Node) : Js (list obj) unit :=
  match experienceItems with
  | [] => ret tt
  | item :: rest =>
      if scraperStopped idx then ret tt          (* break *)
      else λ experiences,
        match processItem sel item (experienceData idx) with
        | (data, Ok true) =>
            forItems scraperStopped sel (S idx) rest (experiences ++ [data])
        | (_, Ok false) =>
            forItems scraperStopped sel (S idx) rest experiences
        | (_, Throw e) => (experiences, Throw e)
        end
  end.

(** [scrapeExperience(page, config)].  The state is its local array
    [experiences]: a call runs from the empty array. *)
Definition scrapeExperience (scraperStopped : nat → bool) (page : Page)
    (config : Config) : Js (list obj) (list obj) :=
  try_catch
    (experienceItems <-
       await (page_query_all page (experienceItem (selectors config))) ;;
     forItems scraperStopped (selectors config) 0 experienceItems)
    (λ e, ret tt) ;;
  get.

(** [scrapeProfile], for any section extraction in the place of
    [scrapeExperience]: the extraction starts from an empty array. *)
Definition scrapeProfileWith (extraction : Js (list obj) (list obj))
    (url_ : jsstring) : ProfileResult :=
  match extraction [] with
  | (_, Ok experiences_) =>
      {| url := url_; success := true; experiences := experiences_;
         total_experiences := length experiences_; error := None |}
  | (_, Throw message) =>
      {| url := url_; success := false; experiences := [];
         total_experiences := 0; error := Some message |}
  end.

(** [scrapeProfile(page, url, config)] *)
Definition scrapeProfile (scraperStopped : nat → bool) (page : Page)
    (url_ : jsstring) (config : Config) : ProfileResult :=
  scrapeProfileWith (scrapeExperience scraperStopped page config) url_.

(** *** What an item contributes

    The text each block of [processItem] obtains from the page, as one
    outcome; the records one iteration pushes; the records a run over
    [items] pushes when it is not stopped. *)

Definition roleText (sel : Selectors) (item : Node)
  : result (option jsstring) :=
  roleElem ← query item (role sel);
  match roleElem with
  | Some el => Some <$> evaluateText el
  | None => mret None
  end.

Definition detailsText (sel : Selectors) (item : Node)
  : result (list jsstring) :=
  detailElems ← query_all item (companyAndDetails sel);
  collectText detailElems [].

Definition skillDescText (sel : Selectors) (item : Node)
  : result (list jsstring) :=
  skillDescElems ← query_all item (skills_and_description sel);
  collectText skillDescElems [].

Definition itemRecords (sel : Selectors) (idx : nat) (item : Node)
  : list obj :=
  match processItem sel item (experienceData idx) with
  | (data, Ok true) => [data]
  | _ => []
  end.

Definition enumerated (sel : Selectors) (idx : nat) (items : list Node)
  : list obj :=
  mjoin (imap (λ i item, itemRecords sel (idx + i) item) items).

(** The test that ends an iteration in [continue]: the query for nested
    items answered, with more than one match. *)
Definition skipped (sel : Selectors) (item : Node) : bool :=
  match query_all item (experienceItem sel) with
  | Ok children => 1 <? length children
  | Throw _ => false
  end.

(** The ranks, counted from [idx], of the items that are not skipped. *)
Definition surviving (sel : Selectors) (idx : nat) (items : list Node)
  : list nat :=
  mjoin (imap (λ i item, if skipped sel item then [] else [idx + i]) items).

End scraper.

(** *** The shape of a record *)

Definition experience_keys : gset string :=
  {[ "index"; "role"; "company"; "position"; "duration"; "location";
     "description"; "skills"; "has_children" ]}.

Definition text_keys : gset string :=
  {[ "role"; "company"; "position"; "duration"; "location";
     "description"; "skills" ]}.

Definition role_key : gset string := {[ "role" ]}.
Definition details_keys : gset string :=
  {[ "company"; "position"; "duration"; "location" ]}.
Definition description_keys : gset string := {[ "description"; "skills" ]}.

Definition text_or_null (v : jsval) : Prop := v = JNull ∨ ∃ s, v = JStr s.

(** What each key may hold: a number under [index], a boolean under
    [has_children], [null] or a string under the seven text keys. *)
Definition field_ok (key : string) (v : jsval) : Prop :=
  if decide (key = "index") then ∃ n, v = JNum n
  else if decide (key = "has_children") then ∃ b, v = JBool b
  else text_or_null v.

(** Every key of the object literal is present, and holds a value of its
    kind: no key is missing and none holds [undefined]. *)
Definition complete (data : obj) : Prop :=
  dom data = experience_keys ∧ map_Forall field_ok data.

(** A field that holds a string holds a trimmed one, which is not empty
    unless the key is [role] or [position]. *)
Definition tidy_field (key : string) (v : jsval) : Prop :=
  ∀ s, v = JStr s →
       trimmed s ∧ (key ≠ "role" → key ≠ "position" → s ≠ []).

End ScraperJs.

(** * The TypeScript variant *)

Module ScraperTs.

Record ExperienceSelectors : Type := {
  experienceItem : jsstring;
  jobTitle : jsstring;
  details : jsstring;
  description : jsstring;
}.

(** [education.details] of the source is [education_details] here: the two
    selector groups share one name space. *)
Record EducationSelectors : Type := {
  educationItem : jsstring;
  institution : jsstring;
  education_details : jsstring;
}.

Record Selectors : Type := {
  experience : ExperienceSelectors;
  education : EducationSelectors;
}.

Record Config : Type := {
  profiles : list jsstring;
  selectors : Selectors;
  outputFile : jsstring;
}.

(** [text || empty]: an empty (falsy) text is replaced by the empty
    string, that is, kept. *)
Definition or_empty (text : jsstring) : jsstring :=
  if truthy text then text else [].

(** The string ["null"] the variant uses where nothing was found. *)
Definition null_text : jsstring := lit "null".

(** The selector handed to [item.$$] for the detail elements:
    [item + " "] is removed from [details]; what stands before the first
    [" > "] of the result, then [" > "], then the parts of [details] behind
    its first [" > "], joined by [" > "] again. *)
Definition detailsQuery (itemSelector detailsSelector : jsstring) : jsstring :=
  default []
    (split child_combinator (replace (itemSelector ++ space) [] detailsSelector)
       !! 0)
  ++ child_combinator
  ++ join child_combinator (drop 1 (split child_combinator detailsSelector)).

Section scraper.
Context `{Puppeteer Page Node}.

(** [page.evaluate(...)] with [el.textContent?.trim()], the empty string
    when that is falsy.  The [textContent] of an element is never [null]. *)
Definition evaluateTextOrEmpty (el : Node) : result jsstring :=
  text ← textContent el; mret (or_empty (trim text)).

Definition hasChildrenOfSameType (element : Node) (selector : jsstring)
  : result bool :=
  children ← query_all element selector;
  mret (0 <? length children).

(** The [while (parent)] walk up the parent chain, run by [page.evaluate]. *)
Definition isChildElement (element : Node) (selector : jsstring)
  : result bool :=
  chain ← parentElements element;
  mret (existsb (λ parent, matches parent selector) chain).

(** The three detail fields: filled together, and only from three elements
    on. *)
Definition readDetails (detailsElements : list Node)
  : result (jsstring * jsstring * jsstring) :=
  match detailsElements with
  | el0 :: el1 :: el2 :: _ =>                   (* length >= 3 *)
      companyAndType ← evaluateTextOrEmpty el0;
      datesAndDuration ← evaluateTextOrEmpty el1;
      location ← evaluateTextOrEmpty el2;
      mret (companyAndType, datesAndDuration, location)
  | _ => mret ([], [], [])
  end.

(** The [if / else if / else if] on [descriptionElements.length]: the pair
    (description, skills). *)
Definition readDescriptionSkills (descriptionElements : list Node)
  : result (jsstring * jsstring) :=
  match descriptionElements with
  | [] => mret (null_text, null_text)
  | [el0] =>
      skills ← evaluateTextOrEmpty el0;
      mret (null_text, skills)
  | el0 :: el1 :: _ =>                          (* length >= 2 *)
      description_ ← evaluateTextOrEmpty el0;
      skills ← evaluateTextOrEmpty el1;
      mret (description_, skills)
  end.

(** The body of the [try] of one experience item: the record it pushes. *)
Definition extractExperience (profileUrl : jsstring)
    (sel : ExperienceSelectors) (item : Node) : result obj :=
  jobTitleElement ←
    query item (replace (experienceItem sel ++ space) [] (jobTitle sel));
  jobTitle_ ← match jobTitleElement with
              | Some el => evaluateTextOrEmpty el
              | None => mret []
              end;
  detailsElements ←
    query_all item (detailsQuery (experienceItem sel) (details sel));
  '(companyAndType, datesAndDuration, location) ← readDetails detailsElements;
  descriptionElements ←
    query_all item
      (replace (experienceItem sel ++ space) [] (description sel));
  '(description_, skills) ← readDescriptionSkills descriptionElements;
  mret (<["Profil" := JStr profileUrl]> (
        <["Titre du poste" := JStr jobTitle_]> (
        <["Entreprise et type d'emploi" := JStr companyAndType]> (
        <["Dates et durée" := JStr datesAndDuration]> (
        <["Lieu" := JStr location]> (
        <["Description" := JStr description_]> (
        <["Compétences" := JStr skills]> ∅))))))).

(** The [for] loop of [scrapeExperience].  The two duplicate checks stand
    before the [try]: what they throw leaves the loop. *)
Fixpoint forExperienceItems (profileUrl : jsstring)
    (sel : ExperienceSelectors) (experienceItems : list Node)
  : Js (list obj) unit :=
  match experienceItems with
  | [] => ret tt
  | item :: rest =>
      isChild <- await (isChildElement item (experienceItem sel)) ;;
      if isChild : bool then forExperienceItems profileUrl sel rest
      else
        hasChildren <-
          await (hasChildrenOfSameType item (experienceItem sel)) ;;
        if hasChildren : bool then forExperienceItems profileUrl sel rest
        else
          try_catch
            (record <- await (extractExperience profileUrl sel item) ;;
             push record)
            (λ error, ret tt) ;;
          forExperienceItems profileUrl sel rest
  end.

(** [scrapeExperience(page, profileUrl, config)].  The state is its local
    array [experienceData]: a call runs from the empty array. *)
Definition scrapeExperience (page : Page) (profileUrl : jsstring)
    (config : Config) : Js (list obj) (list obj) :=
  page' <- await (goto page (profileUrl ++ lit "/details/experience")) ;;
  experienceItems <-
    await (page_query_all page' (experienceItem (experience (selectors config)))) ;;
  forExperienceItems profileUrl (experience (selectors config)) experienceItems ;;
  get.

(** The two detail fields of an education item, each under its own
    [if (detailsElements.length >= n)]. *)
Definition readEducationDetails (detailsElements : list Node)
  : result (jsstring * jsstring) :=
  diploma ← match detailsElements !! 0 with     (* length >= 1 *)
            | Some el => evaluateTextOrEmpty el
            | None => mret []
            end;
  duration ← match detailsElements !! 1 with    (* length >= 2 *)
             | Some el => evaluateTextOrEmpty el
             | None => mret []
             end;
  mret (diploma, duration).

Definition extractEducation (profileUrl : jsstring)
    (sel : EducationSelectors) (item : Node) : result obj :=
  institutionElement ←
    query item (replace (educationItem sel ++ space) [] (institution sel));
  institution_ ← match institutionElement with
                 | Some el => evaluateTextOrEmpty el
                 | None => mret []
                 end;
  detailsElements ←
    query_all item (detailsQuery (educationItem sel) (education_details sel));
  '(diploma, duration) ← readEducationDetails detailsElements;
  mret (<["Profil" := JStr profileUrl]> (
        <["Établissement" := JStr institution_]> (
        <["Diplôme" := JStr diploma]> (
        <["Durée" := JStr duration]> ∅)))).

Fixpoint forEducationItems (profileUrl : jsstring) (sel : EducationSelectors)
    (educationItems : list Node) : Js (list obj) unit :=
  match educationItems with
  | [] => ret tt
  | item :: rest =>
      try_catch
        (record <- await (extractEducation profileUrl sel item) ;;
         push record)
        (λ error, ret tt) ;;
      forEducationItems profileUrl sel rest
  end.

(** [scrapeEducation(page, profileUrl, config)] *)
Definition scrapeEducation (page : Page) (profileUrl : jsstring)
    (config : Config) : Js (list obj) (list obj) :=
  page' <- await (goto page (profileUrl ++ lit "/details/education")) ;;
  educationItems <-
    await (page_query_all page' (educationItem (education (selectors config)))) ;;
  forEducationItems profileUrl (education (selectors config)) educationItems ;;
  get.

(** *** What an item contributes *)

(** What one experience item adds to [experienceData], or the exception that
    leaves the loop. *)
Definition itemOutcome (profileUrl : jsstring) (sel : ExperienceSelectors)
    (item : Node) : result (list obj) :=
  isChild ← isChildElement item (experienceItem sel);
  if isChild : bool then mret []
  else
    hasChildren ← hasChildrenOfSameType item (experienceItem sel);
    if hasChildren : bool then mret []
    else mret (match extractExperience profileUrl sel item with
               | Ok record => [record]
               | Throw _ => []
               end).

Definition educationRecords (profileUrl : jsstring) (sel : EducationSelectors)
    (item : Node) : list obj :=
  match extractEducation profileUrl sel item with
  | Ok record => [record]
  | Throw _ => []
  end.

End scraper.

(** *** The shape of a record *)

Definition experience_keys : gset string :=
  {[ "Profil"; "Titre du poste"; "Entreprise et type d'emploi";
     "Dates et durée"; "Lieu"; "Description"; "Compétences" ]}.



(** Every field but [Profil] holds a trimmed string. *)
Definition trimmed_field (key : string) (v : jsval) : Prop :=
  key ≠ "Profil" → ∃ s, v = JStr s ∧ trimmed s.

End ScraperTs.

(** * An in-memory page

    A fake browser to run the two engines on concrete pages.  A node carries
    its [textContent], the answers of [$$] by selector (a selector that is
    not listed matches nothing), its parent chain and the selectors the node
    itself matches; each DOM read either answers or throws. *)

#[warnings="-register-all"]
Inductive FakeNode : Type :=
  FakeElement {
    fake_text : result jsstring;
    fake_queries : list (jsstring * result (list FakeNode));
    fake_parents : result (list FakeNode);
    fake_matches : list jsstring;
  }.

Record FakePage : Type := {
  fake_navigation : option jsstring;      (* what [goto] throws, if it does *)
  fake_page_queries : list (jsstring * result (list FakeNode));
}.

Definition fake_answer {A} (answers : list (jsstring * result (list A)))
    (selector : jsstring) : result (list A) :=
  match list_find (λ entry, entry.1 = selector) answers with
  | Some (_, (_, answer)) => answer
  | None => Ok []
  end.

#[global] Instance fake_browser : Puppeteer FakePage FakeNode := {|
  goto page url :=
    match fake_navigation page with
    | None => Ok page
    | Some message => Throw message
    end;
  page_query_all page selector := fake_answer (fake_page_queries page) selector;
  query_all el selector := fake_answer (fake_queries el) selector;
  query el selector := head <$> fake_answer (fake_queries el) selector;
  textContent el := fake_text el;
  parentElements el := fake_parents el;
  matches el selector := bool_decide (selector ∈ fake_matches el);
|}.

(** A leaf element with the given text. *)
Definition text_node (text : jsstring) : FakeNode :=
  FakeElement (Ok text) [] (Ok []) [].

(** ** Sample pages

    The same nodes serve both engines: the configured selectors of the two
    variants resolve to [li], [h3], [div > span] and [p]. *)

Definition js_config : ScraperJs.Config :=
  {| ScraperJs.selectors :=
       {| ScraperJs.experienceItem := lit "li";
          ScraperJs.role := lit "h3";
          ScraperJs.companyAndDetails := lit "div > span";
          ScraperJs.skills_and_description := lit "p" |};
     ScraperJs.urls := [lit "https://example.test/in/ada"] |}.

Definition ts_config : ScraperTs.Config :=
  {| ScraperTs.profiles := [lit "https://example.test/in/ada"];
     ScraperTs.selectors :=
       {| ScraperTs.experience :=
            {| ScraperTs.experienceItem := lit "li";
               ScraperTs.jobTitle := lit "li h3";
               ScraperTs.details := lit "li div > span";
               ScraperTs.description := lit "li p" |};
          ScraperTs.education :=
            {| ScraperTs.educationItem := lit "li";
               ScraperTs.institution := lit "li h3";
               ScraperTs.education_details := lit "li div > span" |} |};
     ScraperTs.outputFile := lit "out.xlsx" |}.

Definition profile_url : jsstring := lit "https://example.test/in/ada".

(** An item node: the answers of its four queries. *)
Definition experience_item
    (nested title details descriptions : result (list FakeNode)) : FakeNode :=
  FakeElement (Ok [])
    [ (lit "li", nested); (lit "h3", title);
      (lit "div > span", details); (lit "p", descriptions) ]
    (Ok []) [lit "li"].

Definition engineer : FakeNode :=
  experience_item (Ok [])
    (Ok [text_node (lit " Engineer ")])
    (Ok [text_node (lit "Acme Corp" ++ middle_dot ++ lit "Full-time");
         text_node (lit "2020 - 2021"); text_node (lit "Paris")])
    (Ok [text_node (lit "Built things"); text_node (lit "Python")]).

Definition analyst : FakeNode :=
  experience_item (Ok [])
    (Ok [text_node (lit "Analyst")])
    (Ok [text_node (lit "Initech"); text_node (lit "2018 - 2020")])
    (Ok [text_node (lit "SQL")]).

(** An item whose title query throws. *)
Definition broken_title : FakeNode :=
  experience_item (Ok [])
    (Throw (lit "detached"))
    (Ok [text_node (lit "Globex"); text_node (lit "2016 - 2018");
         text_node (lit "Lyon")])
    (Ok [text_node (lit "Excel")]).

(** An item with exactly one descendant that matches the item selector, and
    that descendant: an item as [engineer], with an ancestor that matches
    the item selector in its parent chain. *)
Definition nested_engineer : FakeNode :=
  FakeElement (fake_text engineer) (fake_queries engineer)
    (Ok [FakeElement (Ok []) [] (Ok []) [lit "li"]]) (fake_matches engineer).

Definition wrapper : FakeNode :=
  experience_item (Ok [nested_engineer])
    (Ok [text_node (lit "Acme Corp")]) (Ok []) (Ok []).

(** An item on which the query for nested items throws. *)
Definition stale_item : FakeNode :=
  experience_item (Throw (lit "detached"))
    (Ok [text_node (lit "Intern")]) (Ok []) (Ok []).

Definition profile_page (items : list FakeNode) : FakePage :=
  {| fake_navigation := None; fake_page_queries := [(lit "li", Ok items)] |}.

(** The stop flag is never set; the stop flag is set once [k] items are
    done. *)
Definition never : nat → bool := λ _, false.
Definition stopped_from (k : nat) : nat → bool := λ idx, k <=? idx.

Definition acme : jsstring :=
  lit "Acme Corp" ++ middle_dot ++ lit "Full-time".
Definition three_parts : jsstring :=
  lit "A" ++ middle_dot ++ lit "B" ++ middle_dot ++ lit "C".

Definition three_fragments : list FakeNode :=
  [text_node (lit "About"); text_node (lit "Middle");
   text_node (lit "Python")].

Definition two_details : list FakeNode :=
  [text_node (lit "Initech"); text_node (lit "2018 - 2020")].

Definition padded_details : list FakeNode :=
  [text_node (lit "  "); text_node (lit " Initech ");
   text_node []; text_node (lit "2018 - 2020")].

(** A page on which the enumeration of the items throws. *)
Definition closed_page : FakePage :=
  {| fake_navigation := None;
     fake_page_queries := [(lit "li", Throw (lit "Target closed"))] |}.

(** An item with two descendants that match the item selector. *)
Definition group : FakeNode :=
  experience_item (Ok [nested_engineer; nested_engineer])
    (Ok [text_node (lit "Acme Corp")]) (Ok []) (Ok []).

(** * The rest of [scraper.js]: keys, page loading, the run *)

Module ScraperJsRun.

(** ** The key listener *)

(** The two global flags. *)
Record Flags : Type := {
  scraperStarted : bool;
  scraperStopped : bool;
}.

(** [let scraperStarted = false; let scraperStopped = false;] *)
Definition initial : Flags :=
  {| scraperStarted := false; scraperStopped := false |}.

(** [key.toLowerCase() === 's']: the strings whose lower case is the one
    letter s are s and S. *)
Definition is_s (key : jsstring) : bool :=
  bool_decide (key = lit "s") || bool_decide (key = lit "S").

(** [key === '\u0003' || key === '\u001B'] *)
Definition is_exit (key : jsstring) : bool :=
  bool_decide (key = [3%N]) || bool_decide (key = [27%N]).

(** The handler of [data]: the flags after the chunk [key], [None] when the
    handler ends the process. *)
Definition onData (flags : Flags) (key : jsstring) : option Flags :=
  let flags' :=
    if is_s key then
      if negb (scraperStarted flags)
      then {| scraperStarted := true;
              scraperStopped := scraperStopped flags |}
      else {| scraperStarted := scraperStarted flags;
              scraperStopped := true |}
    else flags in
  if is_exit key then None else Some flags'.

(** The chunks of standard input, one after the other. *)
Fixpoint onChunks (flags : Flags) (keys : list jsstring) : option Flags :=
  match keys with
  | [] => Some flags
  | key :: rest =>
      match onData flags key with
      | Some flags' => onChunks flags' rest
      | None => None
      end
  end.

(** The flags after [n] chunks that were the key s. *)
Definition flags_after (n : nat) : Flags :=
  {| scraperStarted := 1 <=? n; scraperStopped := 2 <=? n |}.

(** ** Loading the pages *)

(** What [launchBrowserAndLoadUrls] asks of the browser besides [goto]. *)
Class Browser (Page : Type) : Type := {
  (** [browser.newPage()], by the rank of the call. *)
  newPage : nat → result Page;
  (** [page.setViewport(...)] *)
  setViewport : Page → result unit;
  (** The page as it is when the navigation failed or ran into the
      30 seconds limit. *)
  stalled : Page → jsstring → Page;
}.

(** The names of the properties every plain object inherits from
    [Object.prototype]: [object[name]] finds a function under each of them,
    and [Object.prototype] itself under [__proto__]. *)
Definition object_prototype_keys : list jsstring :=
  [ lit "constructor"; lit "__defineGetter__"; lit "__defineSetter__";
    lit "hasOwnProperty"; lit "__lookupGetter__"; lit "__lookupSetter__";
    lit "isPrototypeOf"; lit "propertyIsEnumerable"; lit "toString";
    lit "valueOf"; lit "__proto__"; lit "toLocaleString" ].

Definition inherited (key : jsstring) : bool :=
  bool_decide (key ∈ object_prototype_keys).

(** The object [allResults] that is written to [results.json]
    ([scraped_at], the date of the run, apart). *)
Record Results : Type := {
  total_profiles : nat;
  profiles : list ScraperJs.ProfileResult;
}.

Section run.
Context `{Puppeteer Page Node} `{!Browser Page}.




(** [scrapeExperience] handed a value that is no page: [page.$$] is not a
    function, and the call of it throws inside the [try]. *)
Definition scrapeExperienceOfNoPage (scraperStopped : nat → bool)
    (config : ScraperJs.Config) : Js (list obj) (list obj) :=
  try_catch
    (experienceItems <-
       await (Throw (lit "page.$$ is not a function") : result (list Node)) ;;
     ScraperJs.forItems scraperStopped (ScraperJs.selectors config) 0
       experienceItems)
    (λ e, ret tt) ;;
  get.

(** The loop [for (const url of config.urls)] of [main], with
    [allResults.profiles] as its state.  [stoppedAtUrl u] is what the stop
    flag holds when the iteration of rank [u] reads it, and
    [stoppedAtItem u idx] what it holds when the scraping of that url reads
    it at the head of item [idx].  [pages] holds the keys of its own of the
    object [pages], a plain object: [pages[url]] is the tab registered under
    [url], or else the member of [Object.prototype] of that name, a function
    or an object that [if (!page)] lets pass and that is scraped as if it
    were a page; it is [undefined] for every other [url]. *)
Fixpoint forUrls (stoppedAtUrl : nat → bool)
    (stoppedAtItem : nat → nat → bool) (pages : gmap jsstring Page)
    (config : ScraperJs.Config) (u : nat) (urls : list jsstring)
  : Js (list ScraperJs.ProfileResult) unit :=
  match urls with
  | [] => ret tt
  | url :: rest =>
      if stoppedAtUrl u then ret tt              (* break *)
      else
        match pages !! url with
        | Some page =>
            push (ScraperJs.scrapeProfile (stoppedAtItem u) page url config) ;;
            forUrls stoppedAtUrl stoppedAtItem pages config (S u) rest
        | None =>
            if inherited url then
              push (ScraperJs.scrapeProfileWith
                      (scrapeExperienceOfNoPage (stoppedAtItem u) config) url) ;;
              forUrls stoppedAtUrl stoppedAtItem pages config (S u) rest
            else                                 (* continue *)
              forUrls stoppedAtUrl stoppedAtItem pages config (S u) rest
        end
  end.

(** [allResults] of [main] once the loop is over. *)
Definition scrapeAll (stoppedAtUrl : nat → bool)
    (stoppedAtItem : nat → nat → bool) (pages : gmap jsstring Page)
    (config : ScraperJs.Config) : Results :=
  {| total_profiles := length (ScraperJs.urls config);
     profiles :=
       fst (forUrls stoppedAtUrl stoppedAtItem pages config 0
              (ScraperJs.urls config) []) |}.

End run.

End ScraperJsRun.

(** * The rest of the TypeScript variant: the run and the export *)

Module ScraperTsRun.

(** A workbook: its sheets in the order they were appended, each a name and
    the rows it was made of. *)
Definition Workbook : Type := list (string * list obj).

(** [exportToExcel]: the workbook handed to [XLSX.writeFile]. *)
Definition exportToExcel (experienceData educationData : list obj)
  : Workbook :=
  (if 0 <? length experienceData
   then [("Expérience", experienceData)] else [])
  ++ (if 0 <? length educationData
      then [("Éducation", educationData)] else []).

Section run.
Context `{Puppeteer Page Node}.

(** The two [try] blocks of one profile, with the pair
    [(allExperienceData, allEducationData)] as state: the records of a
    section are appended when its call returns, and an exception is logged
    and dropped. *)
Definition scrapeSections (page : Page) (config : ScraperTs.Config)
    (profileUrl : jsstring) (all : list obj * list obj)
  : list obj * list obj :=
  let allExperienceData :=
    match ScraperTs.scrapeExperience page profileUrl config [] with
    | (_, Ok experienceData) => all.1 ++ experienceData
    | (_, Throw _) => all.1
    end in
  let allEducationData :=
    match ScraperTs.scrapeEducation page profileUrl config [] with
    | (_, Ok educationData) => all.2 ++ educationData
    | (_, Throw _) => all.2
    end in
  (allExperienceData, allEducationData).

(** The loop [for (const profileUrl of config.profiles)] of [main].  [page]
    is the one tab of the run: every section call navigates it anew. *)
Definition forProfiles (page : Page) (config : ScraperTs.Config)
    (profiles : list jsstring) : list obj * list obj :=
  foldl (λ all profileUrl, scrapeSections page config profileUrl all)
    ([], []) profiles.

(** What [main] writes once the loop is over: the workbook, or nothing when
    no record was extracted. *)
Definition exported (page : Page) (config : ScraperTs.Config)
  : option Workbook :=
  let '(allExperienceData, allEducationData) :=
    forProfiles page config (ScraperTs.profiles config) in
  if (0 <? length allExperienceData) || (0 <? length allEducationData)
  then Some (exportToExcel allExperienceData allEducationData)
  else None.

(** The records a section call hands back to [main]. *)
Definition sectionRecords (call : Js (list obj) (list obj)) : list obj :=
  match call [] with
  | (_, Ok records) => records
  | (_, Throw _) => []
  end.

End run.

End ScraperTsRun.

(** ** More sample data *)

(** A page whose navigation runs out of time. *)
Definition stalled_page : FakePage :=
  {| fake_navigation := Some (lit "Navigation timeout");
     fake_page_queries := [(lit "li", Ok [engineer])] |}.

(** A browser that opens one tab, which loads nothing in time, and no
    second one. *)
#[global] Instance one_tab_browser : ScraperJsRun.Browser FakePage := {|
  ScraperJsRun.newPage n :=
    match n with
    | 0 => Ok stalled_page
    | S _ => Throw (lit "Target closed")
    end;
  ScraperJsRun.setViewport page := Ok tt;
  ScraperJsRun.stalled page url := page;
|}.

Definition two_urls : ScraperJs.Config :=
  {| ScraperJs.selectors := ScraperJs.selectors js_config;
     ScraperJs.urls := [lit "https://example.test/in/ada";
                        lit "https://example.test/in/bob"] |}.


Definition two_pages : gmap jsstring FakePage :=
  <[lit "https://example.test/in/ada" := profile_page [engineer; analyst]]> (
  <[lit "https://example.test/in/bob" := profile_page [analyst]]> ∅).

(** The stop flag is set while the first url is scraped, after its first
    item, and stays set. *)
Definition stop_in_first_url_at_url : nat → bool := λ u, 1 <=? u.
Definition stop_in_first_url_at_item : nat → nat → bool :=
  λ u idx, (1 <=? u) || (1 <=? idx).

(** A details selector with no child combinator, and one for items
    selected by [ul > li]. *)
Definition flat_details : jsstring := lit "li span".
Definition nested_item_details : jsstring := lit "ul > li div > span".

(** * Facts about the string operations *)

Lemma starts_with_prefix pat s :
  starts_with pat s = true ↔ ∃ r, s = pat ++ r.
Proof.
  revert s. induction pat as [|p pat IH]; intros s; simpl.
  - split; [eauto|done].
  - destruct s as [|c s]; simpl.
    + split; [done|]. intros [r Hr]. discriminate.
    + rewrite andb_true_iff, N.eqb_eq, IH. split.
      * intros [-> [r ->]]. eauto.
      * intros [r Hr]. injection Hr as -> ->. eauto.
Qed.

Lemma starts_with_length pat s :
  starts_with pat s = true → length pat ≤ length s.
Proof.
  intros [r ->]%starts_with_prefix. rewrite length_app. lia.
Qed.

Lemma indexOf_bound pat s j :
  indexOf pat s = Some j → j + length pat ≤ length s.
Proof.
  revert j. induction s as [|c s IH]; intros j; simpl.
  - destruct (starts_with pat []) eqn:Hp; [|done].
    intros [= <-]. by apply starts_with_length in Hp.
  - destruct (starts_with pat (c :: s)) eqn:Hp.
    + intros [= <-]. by apply starts_with_length in Hp.
    + destruct (indexOf pat s) as [j'|]; [|done]. simpl.
      intros [= <-]. specialize (IH j' eq_refl). lia.
Qed.

(** [indexOf] finds the first occurrence. *)
Lemma indexOf_Some pat s j :
  indexOf pat s = Some j →
  first_occurrence pat s (take j s) (drop (j + length pat) s).
Proof.
  revert j. induction s as [|c s IH]; intros j; simpl.
  - destruct (starts_with pat []) eqn:Hp; [|done].
    intros [= <-]. apply starts_with_prefix in Hp as [r Hr].
    split; [|simpl; lia].
    simpl. destruct pat; [done|discriminate].
  - destruct (starts_with pat (c :: s)) eqn:Hp.
    + intros [= <-]. apply starts_with_prefix in Hp as [r Hr].
      split; [|simpl; lia]. simpl. rewrite Hr.
      by rewrite drop_app_length.
    + destruct (indexOf pat s) as [j'|] eqn:Hj; [|done].
      simpl. intros [= <-]. destruct (IH j' eq_refl) as [Heq Hmin].
      split.
      * simpl. by rewrite <- Heq.
      * intros l r Hlr. destruct l as [|c' l].
        { assert (starts_with pat (c :: s) = true) as Hst
            by (apply starts_with_prefix; eauto).
          congruence. }
        injection Hlr as -> Hs. apply Hmin in Hs.
        rewrite length_take in *. simpl. lia.
Qed.

(** [indexOf] answers -1 only when there is no occurrence. *)
Lemma indexOf_None pat s : indexOf pat s = None → ¬ occurs pat s.
Proof.
  induction s as [|c s IH]; simpl.
  - destruct (starts_with pat []) eqn:Hp; [done|]. intros _ (l & r & Hlr).
    assert (starts_with pat [] = true); [|congruence].
    apply starts_with_prefix. destruct l; [eauto|discriminate].
  - destruct (starts_with pat (c :: s)) eqn:Hp; [done|].
    destruct (indexOf pat s) eqn:Hj; [done|]. intros _ (l & r & Hlr).
    destruct l as [|c' l].
    + assert (starts_with pat (c :: s) = true); [|congruence].
      apply starts_with_prefix; eauto.
    + injection Hlr as -> Hs. apply IH; [done|]. by exists l, r.
Qed.

Lemma first_occurrence_indexOf pat s before after :
  first_occurrence pat s before after →
  indexOf pat s = Some (length before)
  ∧ before = take (length before) s
  ∧ after = drop (length before + length pat) s.
Proof.
  intros [Heq Hmin].
  destruct (indexOf pat s) as [j|] eqn:Hj.
  - pose proof (indexOf_Some _ _ _ Hj) as [Heq' Hmin'].
    pose proof (indexOf_bound _ _ _ Hj).
    assert (j = length before).
    { apply Hmin in Heq'. apply Hmin' in Heq.
      rewrite length_take in *. lia. }
    subst j. split; [done|]. rewrite Heq at 1 2.
    rewrite take_app_length. rewrite (assoc (++)), <- length_app.
    by rewrite drop_app_length.
  - exfalso. apply (indexOf_None _ _ Hj). by exists before, after.
Qed.

Lemma indexOf_empty sep : sep ≠ [] → indexOf sep [] = None.
Proof. by destruct sep. Qed.

(** More fuel than the length of the string changes nothing. *)
Lemma split_from_enough sep s fuel fuel' :
  sep ≠ [] → length s ≤ fuel → length s ≤ fuel' →
  split_from fuel sep s = split_from fuel' sep s.
Proof.
  intros Hsep. revert s fuel'.
  induction fuel as [|fuel IH]; intros s fuel' H1 H2.
  - destruct s; [|simpl in *; lia].
    destruct fuel'; [done|]. cbn [split_from]. by rewrite indexOf_empty.
  - cbn [split_from]. destruct (indexOf sep s) as [j|] eqn:Hj.
    + pose proof (indexOf_bound _ _ _ Hj).
      assert (0 < length sep) by (destruct sep; [done|simpl; lia]).
      destruct fuel' as [|fuel']; [lia|]. cbn [split_from]. rewrite Hj.
      f_equal. apply IH; rewrite length_drop; lia.
    + destruct fuel'; cbn [split_from]; [done|]. by rewrite Hj.
Qed.

(** The defining equation of [split]. *)
Lemma split_unfold sep s :
  sep ≠ [] →
  split sep s =
  match indexOf sep s with
  | None => [s]
  | Some j => take j s :: split sep (drop (j + length sep) s)
  end.
Proof.
  intros Hsep. unfold split. destruct s as [|c s].
  - by rewrite indexOf_empty.
  - cbn [length split_from].
    destruct (indexOf sep (c :: s)) as [j|] eqn:Hj; [|done]. f_equal.
    assert (0 < length sep) by (destruct sep; [done|simpl; lia]).
    apply split_from_enough; [done| |done].
    rewrite length_drop. simpl. lia.
Qed.

Lemma split_no_delimiter sep s :
  sep ≠ [] → ¬ occurs sep s → split sep s = [s].
Proof.
  intros Hsep Hno. rewrite split_unfold by done.
  destruct (indexOf sep s) as [j|] eqn:Hj; [|done].
  destruct Hno. apply indexOf_Some in Hj as [Hj _]. unfold occurs. eauto.
Qed.

(** The first two parts of a split: what stands before the first delimiter,
    and what stands between it and the next one. *)
Lemma split_first_two sep s before after segment :
  sep ≠ [] →
  first_occurrence sep s before after → up_to sep after segment →
  ∃ more, split sep s = before :: segment :: more.
Proof.
  intros Hsep Hfirst Hseg.
  apply first_occurrence_indexOf in Hfirst as (Hj & Hb & Ha).
  rewrite split_unfold, Hj, <- Hb, <- Ha by done.
  destruct Hseg as [[Hno ->]|[after' Hfirst']].
  - rewrite split_no_delimiter by done. by exists [].
  - apply first_occurrence_indexOf in Hfirst' as (Hj' & Hb' & _).
    rewrite split_unfold, Hj', <- Hb' by done. eauto.
Qed.

Lemma truthy_nonempty (text : jsstring) : truthy text = true ↔ text ≠ [].
Proof. by destruct text. Qed.

Lemma ok_or_nil {A} (outcome : result (list A)) :
  is_ok outcome = true → outcome = Ok (or_nil outcome).
Proof. by destruct outcome. Qed.

(** ** Trimming *)

Lemma trimStart_head (s : jsstring) c r :
  trimStart s = c :: r → is_white_space c = false.
Proof.
  induction s as [|c' s IH]; [done|]. cbn [trimStart].
  destruct (is_white_space c') eqn:Hc; [done|]. by intros [= <- _].
Qed.

Lemma trimStart_fixed (c : N) (r : jsstring) :
  is_white_space c = false → trimStart (c :: r) = c :: r.
Proof. intros Hc. cbn [trimStart]. by rewrite Hc. Qed.

Lemma trimStart_idemp (s : jsstring) : trimStart (trimStart s) = trimStart s.
Proof.
  destruct (trimStart s) as [|c r] eqn:Hs; [done|].
  apply trimStart_fixed. by eapply trimStart_head.
Qed.

Lemma trimStart_snoc (l : jsstring) (c : N) :
  is_white_space c = false → trimStart (l ++ [c]) = trimStart l ++ [c].
Proof.
  intros Hc. induction l as [|c' l IH].
  - by apply trimStart_fixed.
  - cbn [app trimStart]. by destruct (is_white_space c').
Qed.

Lemma trimEnd_cons (c : N) (r : jsstring) :
  is_white_space c = false → trimEnd (c :: r) = c :: trimEnd r.
Proof.
  intros Hc. unfold trimEnd.
  by rewrite reverse_cons, trimStart_snoc, reverse_app by done.
Qed.

Lemma trimEnd_idemp (s : jsstring) : trimEnd (trimEnd s) = trimEnd s.
Proof. unfold trimEnd. by rewrite reverse_involutive, trimStart_idemp. Qed.

(** The text [trim] returns is empty or starts with a code unit that is
    not white space. *)
Lemma trim_head (s : jsstring) c r :
  trim s = c :: r → is_white_space c = false.
Proof.
  unfold trim. destruct (trimStart s) as [|c' r'] eqn:Hs; [done|].
  pose proof (trimStart_head _ _ _ Hs) as Hc.
  rewrite trimEnd_cons by done. by intros [= <- _].
Qed.

Lemma trim_cons (c : N) (r : jsstring) :
  is_white_space c = false → trim (c :: r) = c :: trimEnd r.
Proof.
  intros Hc. unfold trim. by rewrite trimStart_fixed, trimEnd_cons.
Qed.

(** Trimming twice is trimming once. *)
Lemma trim_idemp (s : jsstring) : trim (trim s) = trim s.
Proof.
  destruct (trim s) as [|c r] eqn:Hs; [done|].
  pose proof (trim_head _ _ _ Hs) as Hc.
  unfold trim in Hs. destruct (trimStart s) as [|c' r'] eqn:Hstart; [done|].
  rewrite trimEnd_cons in Hs by by eapply trimStart_head.
  injection Hs as -> <-.
  by rewrite trim_cons, trimEnd_idemp.
Qed.

(** ** Joining what was split *)

Lemma split_from_nonempty fuel sep s : split_from fuel sep s ≠ [].
Proof. destruct fuel; simpl; [done|]. by destruct (indexOf sep s). Qed.

Lemma join_cons sep x l :
  l ≠ [] → join sep (x :: l) = x ++ sep ++ join sep l.
Proof. by destruct l. Qed.

Lemma join_split_from fuel sep s : join sep (split_from fuel sep s) = s.
Proof.
  revert s. induction fuel as [|fuel IH]; intros s; [done|].
  cbn [split_from]. destruct (indexOf sep s) as [j|] eqn:Hj; [|done].
  rewrite join_cons by apply split_from_nonempty. rewrite IH.
  by apply indexOf_Some in Hj as [<- _].
Qed.

(** [s.split(sep).join(sep)] is [s]. *)
Lemma join_split sep s : join sep (split sep s) = s.
Proof. apply join_split_from. Qed.

Lemma split_head sep (s head : jsstring) :
  sep ≠ [] → up_to sep s head → ∃ more, split sep s = head :: more.
Proof.
  intros Hsep [[Hno ->]|[after Hfirst]].
  - rewrite split_no_delimiter by done. eauto.
  - apply first_occurrence_indexOf in Hfirst as (Hj & Hb & _).
    rewrite split_unfold, Hj, <- Hb by done. eauto.
Qed.

Lemma split_tail sep (s before after : jsstring) :
  sep ≠ [] → first_occurrence sep s before after →
  split sep s = before :: split sep after.
Proof.
  intros Hsep Hfirst.
  apply first_occurrence_indexOf in Hfirst as (Hj & Hb & Ha).
  by rewrite split_unfold, Hj, <- Hb, <- Ha.
Qed.

Lemma child_combinator_nonempty : child_combinator ≠ [].
Proof. done. Qed.

(** Removing a pattern the string starts with. *)
Lemma replace_prefix (pat rest : jsstring) : replace pat [] (pat ++ rest) = rest.
Proof.
  unfold replace.
  assert (indexOf pat (pat ++ rest) = Some 0) as ->.
  { destruct (pat ++ rest) eqn:Hs; simpl;
      (rewrite (proj2 (starts_with_prefix _ _)); [done|]); rewrite <- Hs; eauto. }
  simpl. by rewrite drop_app_length.
Qed.

(** The first occurrence stays the first one when the string goes on. *)
Lemma first_occurrence_app_r (pat s before after more : jsstring) :
  first_occurrence pat s before after →
  first_occurrence pat (s ++ more) before (after ++ more).
Proof.
  intros [Heq Hmin]. split; [by rewrite Heq, <- !(assoc (++))|].
  intros l r Hlr.
  destruct (decide (length before ≤ length l)) as [|Hlt]; [done|].
  apply Hmin with (r := take (length s - length (l ++ pat)) r).
  assert (length (l ++ pat) ≤ length s) as Hle.
  { rewrite Heq, !length_app. lia. }
  pose proof (f_equal (take (length s)) Hlr) as Htake.
  by rewrite take_app_length, (assoc (++)), take_app_ge, <- (assoc (++))
    in Htake.
Qed.

(** The two halves of the selector the TypeScript variant builds for the
    detail elements. *)
Lemma detailsQuery_head (itemSelector detailsSelector head : jsstring) :
  up_to child_combinator
    (replace (itemSelector ++ space) [] detailsSelector) head →
  ScraperTs.detailsQuery itemSelector detailsSelector
  = head ++ child_combinator
    ++ join child_combinator (drop 1 (split child_combinator detailsSelector)).
Proof.
  intros Hhead. unfold ScraperTs.detailsQuery.
  by destruct (split_head _ _ _ child_combinator_nonempty Hhead) as [more ->].
Qed.

Lemma detailsQuery_tail (detailsSelector before after : jsstring) :
  first_occurrence child_combinator detailsSelector before after →
  join child_combinator (drop 1 (split child_combinator detailsSelector))
  = after.
Proof.
  intros Hfirst.
  rewrite (split_tail _ _ _ _ child_combinator_nonempty Hfirst).
  cbn [drop]. apply join_split.
Qed.

(** ** Lists *)

Lemma mjoin_fmap_bind {A B} (f : A → list B) (l : list A) :
  mjoin (f <$> l) = l ≫= f.
Proof.
  induction l as [|x l IH]; [done|].
  rewrite fmap_cons, bind_cons. cbn [mjoin list_join]. by rewrite <- IH.
Qed.


(** The selectors the TypeScript variant hands to the item of the sample
    configuration. *)
Lemma sample_scoped_selectors :
  replace (lit "li" ++ space) [] (lit "li h3") = lit "h3"
  ∧ ScraperTs.detailsQuery (lit "li") (lit "li div > span")
    = lit "div > span"
  ∧ replace (lit "li" ++ space) [] (lit "li p") = lit "p".
Proof. by vm_compute. Qed.

(** * Facts about the state monad *)

Lemma preserves_ret {St A} (P : St → Prop) (a : A) : preserves P (ret a).
Proof. by intros st. Qed.

Lemma preserves_bind {St A B} (P : St → Prop) (m : Js St A)
    (k : A → Js St B) :
  preserves P m → (∀ a, preserves P (k a)) → preserves P (bind m k).
Proof.
  intros Hm Hk st HP. unfold bind. specialize (Hm st HP).
  destruct (m st) as [st' [a|e]]; simpl in *; [by apply Hk|done].
Qed.

Lemma preserves_assign_other key key' v (x : option jsval) :
  key ≠ key' → preserves (λ data : obj, data !! key = x) (assign key' v).
Proof.
  intros Hne data Hx. unfold assign. simpl. by rewrite lookup_insert_ne.
Qed.

(** * Facts about [scraper.js] *)

Section js_facts.
Import ScraperJs.
Context `{Puppeteer Page Node}.

Local Ltac run := unfold bind, ret, assign, await, try_catch, push, get; simpl.

Local Ltac key_in :=
  lazymatch goal with
  | |- _ ∈ _ => by vm_compute
  | |- _ ∉ _ => by vm_compute
  end.

(** ** The three blocks, as functions of what they read *)

Lemma getRole_run sel item data :
  getRole sel item data =
  (match roleText sel item with
   | Ok (Some text) => <["role" := JStr text]> data
   | _ => data
   end, Ok tt).
Proof.
  unfold getRole, roleText. run.
  destruct (query item (role sel)) as [[el|]|]; simpl; try done.
  by destruct (evaluateText el).
Qed.

Lemma decomposeCompany_returns companyInfo data :
  snd (decomposeCompany companyInfo data) = Ok tt.
Proof.
  unfold decomposeCompany. by destruct (split _ _) as [|? [|? ?]].
Qed.

Lemma decomposeDetails_returns texts data :
  snd (decomposeDetails texts data) = Ok tt.
Proof.
  unfold decomposeDetails. run.
  destruct (texts !! 0) as [c|]; simpl.
  - pose proof (decomposeCompany_returns c data) as Hc.
    destruct (decomposeCompany c data) as [d r]; simpl in *; subst r.
    by destruct (texts !! 1), (texts !! 2).
  - by destruct (texts !! 1), (texts !! 2).
Qed.

Lemma last_at_index (texts : list jsstring) :
  at_index texts (length texts - 1)
  = from_option JStr JUndefined (last texts).
Proof.
  unfold at_index. rewrite last_lookup.
  replace (pred (length texts)) with (length texts - 1) by lia.
  by destruct (texts !! _).
Qed.

Lemma decomposeDescriptionSkills_run (texts : list jsstring) (data : obj) :
  decomposeDescriptionSkills texts data =
  (<["skills" := from_option JStr JNull (last texts)]>
     (<["description" := match texts with
                         | first :: _ :: _ => JStr first
                         | _ => JNull
                         end]> data),
   Ok tt).
Proof.
  destruct texts as [|t0 [|t1 rest]]; try done.
  unfold decomposeDescriptionSkills.
  change (length (t0 :: t1 :: rest)) with (S (S (length rest))) at 1.
  cbv beta iota. rewrite last_at_index.
  change (last (t0 :: t1 :: rest)) with (last (t1 :: rest)).
  by destruct (last_is_Some (t1 :: rest)) as [_ [s ->]].
Qed.

Lemma getDetails_run sel item data :
  getDetails sel item data =
  (match detailsText sel item with
   | Ok texts => fst (decomposeDetails texts data)
   | Throw _ => data
   end, Ok tt).
Proof.
  unfold getDetails, detailsText. run.
  destruct (query_all item (companyAndDetails sel)) as [elems|]; simpl;
    [|done].
  destruct (collectText elems []) as [texts|]; simpl; [|done].
  pose proof (decomposeDetails_returns texts data).
  by destruct (decomposeDetails texts data) as [d r]; simpl in *; subst r.
Qed.

Lemma getDescriptionSkills_run sel item data :
  getDescriptionSkills sel item data =
  (match skillDescText sel item with
   | Ok texts => fst (decomposeDescriptionSkills texts data)
   | Throw _ => data
   end, Ok tt).
Proof.
  unfold getDescriptionSkills, skillDescText. run.
  destruct (query_all item (skills_and_description sel)) as [elems|]; simpl;
    [|done].
  destruct (collectText elems []) as [texts|]; simpl; [|done].
  by rewrite decomposeDescriptionSkills_run.
Qed.

(** One iteration: the outer [catch] pushes the record as it stands, more
    than one nested match ends in [continue], anything else runs the three
    blocks and pushes. *)
Lemma processItem_run sel item data :
  processItem sel item data =
  match query_all item (experienceItem sel) with
  | Throw _ => (data, Ok true)
  | Ok children =>
      if 1 <? length children
      then (<["has_children" := JBool true]> data, Ok false)
      else (fst (getDescriptionSkills sel item
                   (fst (getDetails sel item (fst (getRole sel item data))))),
            Ok true)
  end.
Proof.
  unfold processItem. run.
  destruct (query_all item (experienceItem sel)) as [children|]; [|done].
  destruct (1 <? length children); [done|].
  rewrite getRole_run. simpl. rewrite getDetails_run. simpl.
  by rewrite getDescriptionSkills_run.
Qed.

(** No exception leaves an iteration. *)
Lemma processItem_returns sel item data :
  ∃ data' pushed, processItem sel item data = (data', Ok pushed).
Proof.
  rewrite processItem_run.
  destruct (query_all item (experienceItem sel)) as [children|]; [|eauto].
  destruct (1 <? length children); eauto.
Qed.

Lemma itemRecords_at_most_one sel idx item :
  length (itemRecords sel idx item) ≤ 1.
Proof.
  unfold itemRecords.
  destruct (processItem sel item (experienceData idx)) as [data [[|]|]];
    simpl; lia.
Qed.

(** ** The loop *)

Lemma forItems_cons stopped sel idx item rest experiences :
  forItems stopped sel idx (item :: rest) experiences =
  if stopped idx then (experiences, Ok tt)
  else forItems stopped sel (S idx) rest
         (experiences ++ itemRecords sel idx item).
Proof.
  simpl. destruct (stopped idx); [done|]. unfold itemRecords.
  destruct (processItem_returns sel item (experienceData idx)) as (d & b & ->).
  destruct b; [done|]. by rewrite app_nil_r.
Qed.

Lemma enumerated_cons sel idx item rest :
  enumerated sel idx (item :: rest) =
  itemRecords sel idx item ++ enumerated sel (S idx) rest.
Proof.
  unfold enumerated. rewrite imap_cons. simpl. rewrite Nat.add_0_r.
  f_equal. f_equal. apply imap_ext. intros i x _. simpl. f_equal. lia.
Qed.

(** The loop run until the flag is first seen set, before item [k]. *)
Lemma forItems_run stopped sel k items idx experiences :
  (∀ i, i < k → stopped (idx + i) = false) →
  (k < length items → stopped (idx + k) = true) →
  forItems stopped sel idx items experiences =
  (experiences ++ enumerated sel idx (take k items), Ok tt).
Proof.
  revert k idx experiences.
  induction items as [|item rest IH]; intros k idx experiences Hgo Hstop.
  - rewrite take_nil. unfold enumerated. simpl. by rewrite app_nil_r.
  - rewrite forItems_cons. destruct k as [|k].
    + rewrite Nat.add_0_r in Hstop. rewrite Hstop by (simpl; lia).
      unfold enumerated. simpl. by rewrite app_nil_r.
    + assert (stopped idx = false) as ->
        by (rewrite <- (Nat.add_0_r idx); apply Hgo; lia).
      rewrite firstn_cons, enumerated_cons.
      rewrite (IH k).
      * by rewrite (assoc (++)).
      * intros i Hi. replace (S idx + i) with (idx + S i) by lia.
        apply Hgo. lia.
      * intros Hk. replace (S idx + k) with (idx + S k) by lia.
        apply Hstop. simpl. lia.
Qed.

(** Whatever the flag does, the loop returns. *)
Lemma forItems_returns stopped sel idx items experiences :
  ∃ k, k ≤ length items
       ∧ forItems stopped sel idx items experiences =
         (experiences ++ enumerated sel idx (take k items), Ok tt).
Proof.
  revert idx experiences.
  induction items as [|item rest IH]; intros idx experiences.
  - exists 0. split; [done|]. unfold enumerated. simpl. by rewrite app_nil_r.
  - rewrite forItems_cons. destruct (stopped idx).
    + exists 0. split; [simpl; lia|].
      unfold enumerated. simpl. by rewrite app_nil_r.
    + destruct (IH (S idx) (experiences ++ itemRecords sel idx item))
        as (k & Hk & ->).
      exists (S k). split; [simpl; lia|].
      by rewrite firstn_cons, enumerated_cons, (assoc (++)).
Qed.

Lemma forItems_app stopped sel idx pre post experiences :
  (∀ i, i < length pre → stopped (idx + i) = false) →
  forItems stopped sel idx (pre ++ post) experiences =
  forItems stopped sel (idx + length pre) post
    (experiences ++ enumerated sel idx pre).
Proof.
  revert idx experiences.
  induction pre as [|item pre IH]; intros idx experiences Hgo.
  - unfold enumerated. simpl. by rewrite Nat.add_0_r, app_nil_r.
  - rewrite <- app_comm_cons, forItems_cons.
    assert (stopped idx = false) as ->
      by (rewrite <- (Nat.add_0_r idx); apply Hgo; simpl; lia).
    rewrite IH, enumerated_cons, (assoc (++)).
    + simpl. do 2 f_equal. lia.
    + intros i Hi. replace (S idx + i) with (idx + S i) by lia.
      apply Hgo. simpl. lia.
Qed.

(** [scrapeExperience] never throws: a failed enumeration yields no
    record, and the loop returns. *)
Lemma scrapeExperience_unfold stopped page config :
  scrapeExperience stopped page config [] =
  match page_query_all page (experienceItem (selectors config)) with
  | Ok items =>
      let experiences :=
        fst (forItems stopped (selectors config) 0 items []) in
      (experiences, Ok experiences)
  | Throw _ => ([], Ok [])
  end.
Proof.
  unfold scrapeExperience. run.
  destruct (page_query_all page _) as [items|]; [|done]. simpl.
  destruct (forItems_returns stopped (selectors config) 0 items [])
    as (k & _ & ->).
  done.
Qed.

(** ** Every key stays present *)

Lemma preserves_assign key v :
  key ∈ experience_keys → field_ok key v → preserves complete (assign key v).
Proof.
  intros Hkey Hv data [Hdom Hall]. unfold assign. simpl. split.
  - rewrite dom_insert_L, Hdom.
    by apply subseteq_union_1_L, singleton_subseteq_l.
  - by apply map_Forall_insert_2.
Qed.

Lemma text_field_ok key s :
  key ∈ text_keys → field_ok key (JStr s) ∧ field_ok key JNull.
Proof.
  intros Hkey. unfold field_ok, text_or_null.
  repeat case_decide; subst; try (by vm_compute in Hkey); eauto.
Qed.

Local Ltac text_field :=
  lazymatch goal with
  | |- field_ok _ (JStr _) => apply text_field_ok; key_in
  | |- field_ok _ JNull => apply (text_field_ok _ []); key_in
  end.

Lemma experienceData_complete idx : complete (experienceData idx).
Proof.
  split.
  - unfold experienceData, experience_keys.
    by rewrite !dom_insert_L, dom_empty_L, (right_id_L ∅ (∪)),
      !(assoc_L (∪)).
  - unfold experienceData.
    repeat (apply map_Forall_insert_2;
            [first [text_field
                   |unfold field_ok; repeat case_decide; by eauto]|]).
    apply map_Forall_empty.
Qed.

Lemma decomposeCompany_complete companyInfo :
  preserves complete (decomposeCompany companyInfo).
Proof.
  unfold decomposeCompany.
  destruct (split _ _) as [|? [|? ?]];
    (apply preserves_bind; [|intros _]);
    apply preserves_assign; first [key_in|text_field].
Qed.

Lemma decomposeDetails_complete texts :
  preserves complete (decomposeDetails texts).
Proof.
  unfold decomposeDetails.
  apply preserves_bind; [|intros _; apply preserves_bind; [|intros _]].
  - destruct (texts !! 0);
      [apply decomposeCompany_complete|apply preserves_ret].
  - destruct (texts !! 1); [|apply preserves_ret].
    apply preserves_assign; [key_in|text_field].
  - destruct (texts !! 2); [|apply preserves_ret].
    apply preserves_assign; [key_in|text_field].
Qed.

Lemma decomposeDescriptionSkills_complete texts :
  preserves complete (decomposeDescriptionSkills texts).
Proof.
  intros data Hdata. rewrite decomposeDescriptionSkills_run. simpl.
  apply (preserves_assign "skills"); [key_in| |].
  { destruct (last texts); simpl; text_field. }
  apply (preserves_assign "description"); [key_in| |done].
  destruct texts as [|? [|? ?]]; text_field.
Qed.

Lemma processItem_complete sel item : preserves complete (processItem sel item).
Proof.
  intros data Hdata. rewrite processItem_run.
  destruct (query_all item (experienceItem sel)) as [children|]; [|done].
  destruct (1 <? length children); simpl.
  - apply (preserves_assign "has_children"); [key_in| |done].
    unfold field_ok. repeat case_decide; try done. eauto.
  - rewrite getDescriptionSkills_run, getDetails_run, getRole_run. simpl.
    assert (complete (match roleText sel item with
                      | Ok (Some text) => <["role" := JStr text]> data
                      | _ => data
                      end)) as Hrole.
    { destruct (roleText sel item) as [[text|]|]; try done.
      apply (preserves_assign "role"); [key_in|text_field|done]. }
    revert Hrole. generalize (match roleText sel item with
                              | Ok (Some text) => <["role" := JStr text]> data
                              | _ => data
                              end).
    intros data1 Hrole.
    assert (complete (match detailsText sel item with
                      | Ok texts => fst (decomposeDetails texts data1)
                      | Throw _ => data1
                      end)) as Hdetails.
    { destruct (detailsText sel item); [|done].
      by apply decomposeDetails_complete. }
    destruct (skillDescText sel item); [|done].
    by apply decomposeDescriptionSkills_complete.
Qed.

Lemma itemRecords_complete sel idx item :
  Forall complete (itemRecords sel idx item).
Proof.
  unfold itemRecords.
  pose proof (processItem_complete sel item _ (experienceData_complete idx)).
  destruct (processItem sel item (experienceData idx)) as [data [[|]|]];
    simpl in *; [by apply Forall_singleton|constructor..].
Qed.


(** ** What each block leaves alone *)

Local Ltac other_key Hkey :=
  apply preserves_assign_other; intros ->; apply Hkey; by vm_compute.

Lemma getRole_frame sel item key x :
  key ∉ role_key →
  preserves (λ data : obj, data !! key = x) (getRole sel item).
Proof.
  intros Hkey data Hx. rewrite getRole_run. simpl.
  destruct (roleText sel item) as [[text|]|]; try done.
  revert Hx. apply (preserves_assign_other key "role").
  intros ->. apply Hkey. by vm_compute.
Qed.

Lemma decomposeDetails_frame texts key x :
  key ∉ details_keys →
  preserves (λ data : obj, data !! key = x) (decomposeDetails texts).
Proof.
  intros Hkey. unfold decomposeDetails.
  apply preserves_bind; [|intros _; apply preserves_bind; [|intros _]].
  - destruct (texts !! 0); [|apply preserves_ret]. unfold decomposeCompany.
    destruct (split _ _) as [|? [|? ?]];
      (apply preserves_bind; [|intros _]); other_key Hkey.
  - destruct (texts !! 1); [|apply preserves_ret]. other_key Hkey.
  - destruct (texts !! 2); [|apply preserves_ret]. other_key Hkey.
Qed.

Lemma getDetails_frame sel item key x :
  key ∉ details_keys →
  preserves (λ data : obj, data !! key = x) (getDetails sel item).
Proof.
  intros Hkey data Hx. rewrite getDetails_run. simpl.
  destruct (detailsText sel item); [|done].
  by apply decomposeDetails_frame.
Qed.

Lemma getDescriptionSkills_frame sel item key x :
  key ∉ description_keys →
  preserves (λ data : obj, data !! key = x) (getDescriptionSkills sel item).
Proof.
  intros Hkey data Hx. rewrite getDescriptionSkills_run. simpl.
  destruct (skillDescText sel item); [|done].
  rewrite decomposeDescriptionSkills_run. simpl.
  rewrite !lookup_insert_ne; [done|..];
    intros <-; apply Hkey; by vm_compute.
Qed.

(** ** The record of an item that is not skipped

    It is pushed whatever failed, carries its index, and holds [null] in the
    fields of every block that read nothing: the block threw, or found no
    text. *)
Lemma itemRecords_not_skipped sel idx item :
  (∀ children, query_all item (experienceItem sel) = Ok children →
               length children ≤ 1) →
  ∃ data,
    itemRecords sel idx item = [data]
    ∧ data !! "index" = Some (JNum idx)
    ∧ data !! "has_children" = Some (JBool false)
    ∧ (∀ e, query_all item (experienceItem sel) = Throw e →
            data = experienceData idx)
    ∧ ((∀ text, roleText sel item ≠ Ok (Some text)) →
       data !! "role" = Some JNull)
    ∧ ((∀ text texts, detailsText sel item ≠ Ok (text :: texts)) →
       data !! "company" = Some JNull ∧ data !! "position" = Some JNull
       ∧ data !! "duration" = Some JNull ∧ data !! "location" = Some JNull)
    ∧ ((∀ text texts, skillDescText sel item ≠ Ok (text :: texts)) →
       data !! "description" = Some JNull ∧ data !! "skills" = Some JNull).
Proof.
  intros Hfew. unfold itemRecords. rewrite processItem_run.
  destruct (query_all item (experienceItem sel)) as [children|e] eqn:Hq;
    [|eexists; split; [done|]; by repeat split].
  specialize (Hfew children eq_refl).
  destruct (1 <? length children) eqn:Hlt; [apply Nat.ltb_lt in Hlt; lia|].
  eexists. split; [done|].
  set (d0 := experienceData idx).
  set (d1 := fst (getRole sel item d0)).
  set (d2 := fst (getDetails sel item d1)).
  split; [|split; [|split; [done|split; [|split]]]].
  - apply getDescriptionSkills_frame; [key_in|].
    apply getDetails_frame; [key_in|]. by apply getRole_frame; [key_in|].
  - apply getDescriptionSkills_frame; [key_in|].
    apply getDetails_frame; [key_in|]. by apply getRole_frame; [key_in|].
  - intros Hnone.
    apply getDescriptionSkills_frame; [key_in|].
    apply getDetails_frame; [key_in|].
    subst d1. rewrite getRole_run. simpl.
    destruct (roleText sel item) as [[text|]|]; try done.
    by destruct (Hnone text).
  - intros Hnone.
    assert (d2 = d1) as ->.
    { subst d2. rewrite getDetails_run. simpl.
      destruct (detailsText sel item) as [[|text texts]|]; try done.
      by destruct (Hnone text texts). }
    repeat split;
      (apply getDescriptionSkills_frame; [key_in|];
       by apply getRole_frame; [key_in|]).
  - intros Hnone. rewrite getDescriptionSkills_run. simpl.
    destruct (skillDescText sel item) as [[|text texts]|].
    + rewrite decomposeDescriptionSkills_run. simpl.
      by rewrite lookup_insert_ne, !lookup_insert_eq.
    + by destruct (Hnone text texts).
    + split;
        (apply getDetails_frame; [key_in|];
         by apply getRole_frame; [key_in|]).
Qed.

(** Skipped or pushed, an item either adds nothing or adds a record that
    satisfies the hypothesis of [itemRecords_not_skipped]. *)
Lemma itemRecords_pushed sel idx item data :
  data ∈ itemRecords sel idx item →
  ∀ children, query_all item (experienceItem sel) = Ok children →
              length children ≤ 1.
Proof.
  unfold itemRecords. rewrite processItem_run.
  intros Hdata children Hq. rewrite Hq in Hdata.
  destruct (1 <? length children) eqn:Hlt; [by apply elem_of_nil in Hdata|].
  by apply Nat.ltb_ge in Hlt.
Qed.

Lemma itemRecords_index sel idx item record :
  record ∈ itemRecords sel idx item → record !! "index" = Some (JNum idx).
Proof.
  intros Hrecord.
  destruct (itemRecords_not_skipped sel idx item
              (itemRecords_pushed _ _ _ _ Hrecord)) as (data & Hdata & Hi & _).
  rewrite Hdata in Hrecord. by apply list_elem_of_singleton in Hrecord as ->.
Qed.

(** The [index] fields of the records of a run increase strictly. *)
Lemma enumerated_indices sel idx items :
  ∃ indices,
    Forall2 (λ (record : obj) i, record !! "index" = Some (JNum i))
      (enumerated sel idx items) indices
    ∧ StronglySorted lt indices
    ∧ Forall (λ i, idx ≤ i < idx + length items) indices.
Proof.
  revert idx. induction items as [|item rest IH]; intros idx.
  - exists []. unfold enumerated. simpl. by repeat constructor.
  - destruct (IH (S idx)) as (indices & Hrec & Hsorted & Hbound).
    rewrite enumerated_cons.
    pose proof (itemRecords_index sel idx item) as Hidx.
    pose proof (itemRecords_at_most_one sel idx item) as Hone.
    destruct (itemRecords sel idx item) as [|data [|? ?]];
      [| |simpl in Hone; lia].
    + exists indices. repeat split; [done..|].
      eapply Forall_impl; [done|]. simpl. intros; lia.
    + exists (idx :: indices). repeat split.
      * constructor; [|done]. apply Hidx. by left.
      * constructor; [done|]. eapply Forall_impl; [done|]. simpl. intros; lia.
      * constructor; [simpl; lia|].
        eapply Forall_impl; [done|]. simpl. intros; lia.
Qed.

(** ** Reading the text of the matched elements *)

Lemma collectText_acc (elems : list Node) (texts : list jsstring) :
  collectText elems texts = (texts ++.) <$> collectText elems [].
Proof.
  revert texts. induction elems as [|el rest IH]; intros texts; simpl.
  - by rewrite app_nil_r.
  - destruct (evaluateText el) as [text|]; simpl; [|done].
    destruct (truthy text); [|apply IH].
    rewrite (IH (texts ++ [text])), (IH [text]).
    destruct (collectText rest []); simpl; [|done].
    by rewrite <- (assoc (++)).
Qed.

Lemma collectText_cons (el : Node) (rest : list Node) :
  collectText (el :: rest) [] =
  text ← evaluateText el;
  (λ texts, if truthy text then text :: texts else texts)
    <$> collectText rest [].
Proof.
  simpl. destruct (evaluateText el) as [text|]; simpl; [|done].
  rewrite collectText_acc.
  destruct (collectText rest []); simpl; [|done].
  by destruct (truthy text).
Qed.

Lemma collectText_app (before after : list Node) :
  collectText (before ++ after) [] =
  texts ← collectText before [];
  (texts ++.) <$> collectText after [].
Proof.
  induction before as [|el before IH].
  - simpl. by destruct (collectText after []).
  - rewrite <- app_comm_cons, !collectText_cons, IH.
    destruct (evaluateText el) as [text|]; simpl; [|done].
    destruct (collectText before []); simpl; [|done].
    destruct (collectText after []); simpl; [|done].
    by destruct (truthy text).
Qed.

(** ** Which items leave a record *)

Lemma itemRecords_skipped sel idx item :
  skipped sel item = true → itemRecords sel idx item = [].
Proof.
  unfold skipped, itemRecords. rewrite processItem_run.
  destruct (query_all item (experienceItem sel)) as [children|]; [|done].
  by intros ->.
Qed.

Lemma itemRecords_kept sel idx item :
  skipped sel item = false →
  ∃ data, itemRecords sel idx item = [data]
          ∧ data !! "index" = Some (JNum idx).
Proof.
  intros Hkept.
  destruct (itemRecords_not_skipped sel idx item) as (data & Hdata & Hi & _).
  - intros children Hq. unfold skipped in Hkept. rewrite Hq in Hkept.
    by apply Nat.ltb_ge in Hkept.
  - eauto.
Qed.

Lemma surviving_cons sel idx item rest :
  surviving sel idx (item :: rest) =
  (if skipped sel item then [] else [idx]) ++ surviving sel (S idx) rest.
Proof.
  unfold surviving. rewrite imap_cons. simpl. rewrite Nat.add_0_r.
  f_equal. f_equal. apply imap_ext. intros i x _. simpl.
  by replace (idx + S i) with (S (idx + i)) by lia.
Qed.

(** The [index] fields of the records of a run are the ranks of the items
    that are not skipped. *)
Lemma enumerated_surviving sel idx items :
  (.!! "index") <$> enumerated sel idx items
  = (λ i, Some (JNum i)) <$> surviving sel idx items.
Proof.
  revert idx. induction items as [|item rest IH]; intros idx; [done|].
  rewrite enumerated_cons, surviving_cons, !fmap_app, IH. f_equal.
  destruct (skipped sel item) eqn:Hitem.
  - by rewrite itemRecords_skipped.
  - destruct (itemRecords_kept sel idx item Hitem) as (data & -> & Hi).
    simpl. by rewrite Hi.
Qed.

Lemma surviving_sorted sel idx items :
  StronglySorted lt (surviving sel idx items)
  ∧ Forall (λ i, idx ≤ i) (surviving sel idx items).
Proof.
  revert idx. induction items as [|item rest IH]; intros idx.
  - split; constructor.
  - rewrite surviving_cons. destruct (IH (S idx)) as [Hsorted Hbound].
    destruct (skipped sel item); simpl.
    + split; [done|]. eapply Forall_impl; [done|]. simpl. intros; lia.
    + split.
      * constructor; [done|]. eapply Forall_impl; [done|]. simpl. intros; lia.
      * constructor; [done|]. eapply Forall_impl; [done|]. simpl. intros; lia.
Qed.

End js_facts.

(** * Facts about the TypeScript variant *)

Section ts_facts.
Import ScraperTs.
Context `{Puppeteer Page Node}.

Local Ltac run := unfold bind, ret, assign, await, try_catch, push, get; simpl.

(** ** The loops *)

Lemma forExperienceItems_cons profileUrl sel item rest experienceData :
  forExperienceItems profileUrl sel (item :: rest) experienceData =
  match itemOutcome profileUrl sel item with
  | Ok records =>
      forExperienceItems profileUrl sel rest (experienceData ++ records)
  | Throw e => (experienceData, Throw e)
  end.
Proof.
  cbn [forExperienceItems]. unfold itemOutcome. run.
  destruct (isChildElement item (experienceItem sel)) as [[|]|]; simpl;
    [by rewrite app_nil_r| |done].
  destruct (hasChildrenOfSameType item (experienceItem sel)) as [[|]|]; simpl;
    [by rewrite app_nil_r| |done].
  destruct (extractExperience profileUrl sel item); simpl;
    [done|by rewrite app_nil_r].
Qed.

Lemma forExperienceItems_app profileUrl sel pre post experienceData :
  forExperienceItems profileUrl sel (pre ++ post) experienceData =
  (forExperienceItems profileUrl sel pre ;;
   forExperienceItems profileUrl sel post) experienceData.
Proof.
  revert experienceData.
  induction pre as [|item pre IH]; intros experienceData.
  - done.
  - rewrite <- app_comm_cons. unfold bind in *.
    rewrite !forExperienceItems_cons.
    destruct (itemOutcome profileUrl sel item); [apply IH|done].
Qed.

(** When no duplicate check throws, the loop returns with the records of the
    items, in their order. *)
Lemma forExperienceItems_run profileUrl sel items records experienceData :
  Forall2 (λ item rs, itemOutcome profileUrl sel item = Ok rs) items records →
  forExperienceItems profileUrl sel items experienceData =
  (experienceData ++ mjoin records, Ok tt).
Proof.
  intros Hall. revert experienceData.
  induction Hall as [|item rs items records Hitem _ IH]; intros experienceData.
  - simpl. by rewrite app_nil_r.
  - rewrite forExperienceItems_cons, Hitem, IH. simpl.
    by rewrite (assoc (++)).
Qed.

(** A duplicate check that throws ends the loop: the exception leaves it,
    and the items behind are not looked at. *)
Lemma forExperienceItems_abort profileUrl sel pre records item e post
    experienceData :
  Forall2 (λ item rs, itemOutcome profileUrl sel item = Ok rs) pre records →
  itemOutcome profileUrl sel item = Throw e →
  forExperienceItems profileUrl sel (pre ++ item :: post) experienceData =
  (experienceData ++ mjoin records, Throw e).
Proof.
  intros Hpre Hitem. rewrite forExperienceItems_app. unfold bind.
  rewrite (forExperienceItems_run _ _ _ _ _ Hpre).
  by rewrite forExperienceItems_cons, Hitem.
Qed.

Lemma itemOutcome_at_most_one profileUrl sel item records :
  itemOutcome profileUrl sel item = Ok records → length records ≤ 1.
Proof.
  unfold itemOutcome.
  destruct (isChildElement item (experienceItem sel)) as [[|]|]; simpl;
    [intros [= <-]; simpl; lia| |done].
  destruct (hasChildrenOfSameType item (experienceItem sel)) as [[|]|]; simpl;
    [intros [= <-]; simpl; lia| |done].
  intros [= <-]. destruct (extractExperience profileUrl sel item); simpl; lia.
Qed.

Lemma forExperienceItems_invariant (P : obj → Prop) profileUrl sel items
    experienceData :
  (∀ item record,
     extractExperience profileUrl sel item = Ok record → P record) →
  Forall P experienceData →
  Forall P (fst (forExperienceItems profileUrl sel items experienceData)).
Proof.
  intros Hrecord. revert experienceData.
  induction items as [|item rest IH]; intros experienceData Hdata; [done|].
  rewrite forExperienceItems_cons.
  destruct (itemOutcome profileUrl sel item) as [records|] eqn:Hitem; [|done].
  apply IH, Forall_app. split; [done|].
  unfold itemOutcome in Hitem.
  destruct (isChildElement item (experienceItem sel)) as [[|]|];
    simpl in Hitem; [by injection Hitem as <-| |done].
  destruct (hasChildrenOfSameType item (experienceItem sel)) as [[|]|];
    simpl in Hitem; [by injection Hitem as <-| |done].
  injection Hitem as <-.
  destruct (extractExperience profileUrl sel item) eqn:Hextract; [|done].
  apply Forall_singleton. by eapply Hrecord.
Qed.

Lemma forEducationItems_run profileUrl sel items educationData :
  forEducationItems profileUrl sel items educationData =
  (educationData ++ mjoin (educationRecords profileUrl sel <$> items), Ok tt).
Proof.
  revert educationData.
  induction items as [|item rest IH]; intros educationData.
  - simpl. by rewrite app_nil_r.
  - rewrite fmap_cons. cbn [forEducationItems mjoin list_join].
    unfold educationRecords at 1. run.
    destruct (extractEducation profileUrl sel item); simpl; rewrite IH.
    + by rewrite <- (assoc (++)).
    + done.
Qed.

(** ** Every key is present *)







End ts_facts.

(** * The claims *)

(** ** Field decomposition *)

(** C2 (as amended).  [scraper.js] splits the organization fragment on every
    [" · "] and keeps the first two parts.  Without a delimiter the company
    is the whole fragment and the position is [null].  With one, the company
    is the trimmed text before the first delimiter, and the position is the
    trimmed text between the first delimiter and the next one (or the end of
    the fragment when there is no next one): what follows a second delimiter
    is dropped. *)
Theorem decomposeCompany_first_delimiter (companyInfo : jsstring)
    (data : obj) :
  (¬ occurs middle_dot companyInfo →
     ScraperJs.decomposeCompany companyInfo data
     = (<["position" := JNull]> (<["company" := JStr companyInfo]> data),
        Ok tt))
  ∧ (∀ organization rest position,
       first_occurrence middle_dot companyInfo organization rest →
       up_to middle_dot rest position →
       ScraperJs.decomposeCompany companyInfo data
       = (<["position" := JStr (trim position)]>
            (<["company" := JStr (trim organization)]> data), Ok tt)).
Proof.
  unfold ScraperJs.decomposeCompany. split.
  - intros Hno. by rewrite split_no_delimiter.
  - intros organization rest position Hfirst Hseg.
    by destruct (split_first_two middle_dot _ _ _ _ ltac:(done) Hfirst Hseg)
      as [more ->].
Qed.

(** C2 at ["Acme Corp · Full-time"] and at ["Acme Corp"]. *)
Lemma decomposeCompany_first_delimiter_witness :
  fst (ScraperJs.decomposeCompany acme ∅) !! "company"
    = Some (JStr (lit "Acme Corp"))
  ∧ fst (ScraperJs.decomposeCompany acme ∅) !! "position"
    = Some (JStr (lit "Full-time"))
  ∧ fst (ScraperJs.decomposeCompany (lit "Acme Corp") ∅) !! "position"
    = Some JNull.
Proof.
  pose proof (decomposeCompany_first_delimiter acme ∅) as [_ Hsplit].
  pose proof (decomposeCompany_first_delimiter (lit "Acme Corp") ∅)
    as [Hwhole _].
  rewrite (Hsplit (lit "Acme Corp") (lit "Full-time") (lit "Full-time")).
  - rewrite Hwhole; [by vm_compute|].
    apply (indexOf_None middle_dot (lit "Acme Corp")). by vm_compute.
  - exact (indexOf_Some middle_dot acme 9 eq_refl).
  - left. split; [|done].
    apply (indexOf_None middle_dot (lit "Full-time")). by vm_compute.
Defined.

(** C2 as stated fails at ["A · B · C"]: the first delimiter is followed by
    ["B · C"], and the position is ["B"]. *)
Lemma decomposeCompany_second_delimiter_cut :
  first_occurrence middle_dot three_parts
    (lit "A") (lit "B" ++ middle_dot ++ lit "C")
  ∧ fst (ScraperJs.decomposeCompany three_parts ∅) !! "position"
    = Some (JStr (lit "B"))
  ∧ lit "B" ≠ lit "B" ++ middle_dot ++ lit "C".
Proof.
  split; [exact (indexOf_Some middle_dot three_parts 1 eq_refl)|].
  split; by vm_compute.
Qed.

Section claims.
Context `{Puppeteer Page Node}.

(** C1 (as amended).  In [scraper.js]: no fragment gives description [null]
    and skills [null]; one fragment gives description [null] and skills that
    fragment; two or more give description the first fragment and skills the
    last one, and what stands between them is dropped.  In the TypeScript
    variant, where [texts] are the texts of the matched elements: no element
    gives the string ["null"] twice; one gives description ["null"] and
    skills its text; two or more give description the first text and skills
    the second one, and every text after the second is dropped. *)
Theorem description_skills_by_count (skillDescText : list jsstring)
    (data : obj) :
  ScraperJs.decomposeDescriptionSkills skillDescText data =
    (let '(description, skills) :=
       match skillDescText with
       | [] => (JNull, JNull)
       | [only] => (JNull, JStr only)
       | first :: second :: more =>
           (JStr first, JStr (default second (last more)))
       end in
     <["skills" := skills]> (<["description" := description]> data), Ok tt)
  ∧ ∀ (descriptionElements : list Node) (texts : list jsstring),
      Forall2 (λ el text, ScraperTs.evaluateTextOrEmpty el = Ok text)
        descriptionElements texts →
      ScraperTs.readDescriptionSkills descriptionElements =
        Ok (match texts with
            | [] => (ScraperTs.null_text, ScraperTs.null_text)
            | [only] => (ScraperTs.null_text, only)
            | first :: second :: _ => (first, second)
            end).
Proof.
  split.
  - rewrite decomposeDescriptionSkills_run.
    destruct skillDescText as [|t0 [|t1 rest]]; try done.
    change (last (t0 :: t1 :: rest)) with (last (t1 :: rest)).
    destruct rest as [|t2 rest]; [done|].
    change (last (t1 :: t2 :: rest)) with (last (t2 :: rest)).
    by destruct (last_is_Some (t2 :: rest)) as [_ [s ->]].
  - intros descriptionElements texts Hall.
    destruct Hall as [|el0 t0 ? ? H0 [|el1 t1 ? ? H1 _]]; simpl.
    + done.
    + by rewrite H0.
    + by rewrite H0, H1.
Qed.

(** C7 (as amended).  In [scraper.js], from two fragments on: the first
    fragment is decomposed into company and position, the second is the
    duration, the third (when there is one) is the location, and the
    fragments after the third are ignored.  In the TypeScript variant, where
    [texts] are the texts of the matched elements: the three fields are the
    first three texts (the first one undivided) when there are at least
    three, and all three stay empty otherwise; the texts after the third are
    ignored. *)
Theorem details_by_position (first second : jsstring) (more : list jsstring)
    (data : obj) :
  ScraperJs.decomposeDetails (first :: second :: more) data =
    (let dated :=
       <["duration" := JStr second]>
         (fst (ScraperJs.decomposeCompany first data)) in
     match more with
     | [] => dated
     | third :: _ => <["location" := JStr third]> dated
     end, Ok tt)
  ∧ ∀ (detailsElements : list Node) (texts : list jsstring),
      Forall2 (λ el text, ScraperTs.evaluateTextOrEmpty el = Ok text)
        detailsElements texts →
      ScraperTs.readDetails detailsElements =
        Ok (match texts with
            | company :: dates :: location :: _ => (company, dates, location)
            | _ => ([], [], [])
            end).
Proof.
  split.
  - unfold ScraperJs.decomposeDetails, bind. simpl.
    pose proof (decomposeCompany_returns first data) as Hc.
    destruct (ScraperJs.decomposeCompany first data) as [d r];
      simpl in *; subst r.
    by destruct more.
  - intros detailsElements texts Hall.
    destruct Hall as [|el0 t0 ? ? H0 [|el1 t1 ? ? H1 [|el2 t2 ? ? H2 _]]];
      simpl; try done.
    by rewrite H0, H1, H2.
Qed.

(** C10.  In [scraper.js], the details sequence and the description/skills
    sequence of an item hold non-empty strings only.  Each is what
    [collectText] returns for the matched elements, and it is handed as it
    is to the positional decomposition; when every element can be read, it
    is the list of the trimmed texts without the empty ones; so an element
    whose trimmed text is empty leaves no trace, and the fragments after it
    move one position down. *)
Theorem fragments_are_nonempty :
  (∀ sel (item : Node) (texts : list jsstring),
     ScraperJs.detailsText sel item = Ok texts
     ∨ ScraperJs.skillDescText sel item = Ok texts →
     Forall (λ text, text ≠ []) texts)
  ∧ (∀ sel (item : Node) (data : obj),
       ScraperJs.getDetails sel item data =
         (match ScraperJs.detailsText sel item with
          | Ok texts => fst (ScraperJs.decomposeDetails texts data)
          | Throw _ => data
          end, Ok tt)
       ∧ ScraperJs.getDescriptionSkills sel item data =
         (match ScraperJs.skillDescText sel item with
          | Ok texts => fst (ScraperJs.decomposeDescriptionSkills texts data)
          | Throw _ => data
          end, Ok tt))
  ∧ (∀ (elems : list Node) (raws : list jsstring),
       Forall2 (λ el raw, textContent el = Ok raw) elems raws →
       ScraperJs.collectText elems [] =
       Ok (filter (λ text, text ≠ []) (trim <$> raws)))
  ∧ (∀ (before after : list Node) (el : Node) (raw : jsstring),
       textContent el = Ok raw → trim raw = [] →
       ScraperJs.collectText (before ++ el :: after) [] =
       ScraperJs.collectText (before ++ after) []).
Proof.
  assert (∀ (elems : list Node) texts,
            ScraperJs.collectText elems [] = Ok texts →
            Forall (λ text, text ≠ []) texts) as Hnonempty.
  { induction elems as [|el rest IH]; intros texts.
    - by intros [= <-].
    - rewrite collectText_cons.
      destruct (evaluateText el) as [text|]; simpl; [|done].
      destruct (ScraperJs.collectText rest []) as [texts'|]; simpl; [|done].
      intros [= <-]. specialize (IH texts' eq_refl).
      destruct (truthy text) eqn:Htext; [|done].
      constructor; [by apply truthy_nonempty|done]. }
  split; [|split; [|split]].
  - intros sel item texts.
    unfold ScraperJs.detailsText, ScraperJs.skillDescText.
    intros [Htexts|Htexts];
      destruct (query_all item _) as [elems|]; try done;
      by apply (Hnonempty elems).
  - intros sel item data.
    split; [apply getDetails_run|apply getDescriptionSkills_run].
  - intros elems raws Hall.
    induction Hall as [|el raw elems raws Hraw _ IH]; [done|].
    rewrite collectText_cons, IH. unfold evaluateText. rewrite Hraw. simpl.
    rewrite filter_cons. destruct (truthy (trim raw)) eqn:Htext.
    + apply truthy_nonempty in Htext. by rewrite decide_True.
    + rewrite decide_False; [done|].
      intros Hne. apply truthy_nonempty in Hne. congruence.
  - intros before after el raw Hraw Hempty.
    rewrite !collectText_app, collectText_cons.
    unfold evaluateText. rewrite Hraw. simpl. rewrite Hempty. simpl.
    destruct (ScraperJs.collectText before []); simpl; [|done].
    by destruct (ScraperJs.collectText after []).
Qed.

(** ** The pipeline *)

(** C6.  In [scraper.js] the stop flag is read at the head of every
    iteration.  When it is first seen set at the head of iteration [k], that
    is, after [k] items were gone through, the enumeration ends there: the
    call returns, without an exception, exactly the records of the items of
    index below [k] that were not skipped, in their order, and nothing of
    the items from [k] on enters the result; [scrapeProfile] reports it as a
    success. *)
Theorem stop_flag_halts_enumeration (scraperStopped : nat → bool)
    (page : Page) (config : ScraperJs.Config) (url : jsstring)
    (experienceItems : list Node) (k : nat) :
  page_query_all page (ScraperJs.experienceItem (ScraperJs.selectors config))
    = Ok experienceItems →
  (∀ i, i < k → scraperStopped i = false) →
  scraperStopped k = true →
  let records :=
    mjoin (imap (λ i item,
                   ScraperJs.itemRecords (ScraperJs.selectors config) i item)
             (take k experienceItems)) in
  ScraperJs.scrapeExperience scraperStopped page config []
    = (records, Ok records)
  ∧ ScraperJs.scrapeProfile scraperStopped page url config =
    {| ScraperJs.url := url; ScraperJs.success := true;
       ScraperJs.experiences := records;
       ScraperJs.total_experiences := length records;
       ScraperJs.error := None |}.
Proof.
  intros Hitems Hgo Hstop records.
  assert (ScraperJs.scrapeExperience scraperStopped page config []
          = (records, Ok records)) as Hrun.
  { rewrite scrapeExperience_unfold, Hitems.
    by rewrite (forItems_run _ _ k). }
  split; [done|].
  unfold ScraperJs.scrapeProfile, ScraperJs.scrapeProfileWith.
  by rewrite Hrun.
Qed.

(** C8.  The records of a section stand in the order of the enumeration.
    In [scraper.js], with the stop flag first seen set at the head of
    iteration [k] (or never, [k] being the number of items), the output is
    the concatenation, item after item in enumeration order, of what each of
    the first [k] items contributes: nothing when the item is skipped, and
    else one record, which carries the rank of the item under [index].  So
    the [index] fields of the output are exactly the ranks below [k] of the
    items that are not skipped, in increasing order.  In the TypeScript
    variant, when no duplicate check throws, the output is the
    concatenation, item after item, of what each item contributes (one
    record or none). *)
Theorem records_keep_enumeration_order :
  (∀ (scraperStopped : nat → bool) (page : Page) (config : ScraperJs.Config)
     (experienceItems : list Node) (k : nat),
     page_query_all page
       (ScraperJs.experienceItem (ScraperJs.selectors config))
       = Ok experienceItems →
     (∀ i, i < k → scraperStopped i = false) →
     (k < length experienceItems → scraperStopped k = true) →
     let sel := ScraperJs.selectors config in
     let output :=
       fst (ScraperJs.scrapeExperience scraperStopped page config []) in
     output
     = mjoin (imap (λ i item, ScraperJs.itemRecords sel i item)
                (take k experienceItems))
     ∧ (∀ i item, ScraperJs.skipped sel item = true →
                  ScraperJs.itemRecords sel i item = [])
     ∧ (∀ i item, ScraperJs.skipped sel item = false →
                  ∃ data, ScraperJs.itemRecords sel i item = [data]
                          ∧ data !! "index" = Some (JNum i))
     ∧ (.!! "index") <$> output
       = (λ i, Some (JNum i))
           <$> ScraperJs.surviving sel 0 (take k experienceItems)
     ∧ StronglySorted lt (ScraperJs.surviving sel 0 (take k experienceItems)))
  ∧ (∀ (page page' : Page) (profileUrl : jsstring) (config : ScraperTs.Config)
       (experienceItems : list Node) (records : list (list obj)),
       goto page (profileUrl ++ lit "/details/experience") = Ok page' →
       page_query_all page'
         (ScraperTs.experienceItem (ScraperTs.experience (ScraperTs.selectors config)))
         = Ok experienceItems →
       Forall2 (λ item rs,
                  ScraperTs.itemOutcome profileUrl
                    (ScraperTs.experience (ScraperTs.selectors config)) item = Ok rs)
         experienceItems records →
       ScraperTs.scrapeExperience page profileUrl config []
         = (mjoin records, Ok (mjoin records))
       ∧ Forall (λ rs, length rs ≤ 1) records).
Proof.
  split.
  - intros scraperStopped page config items k Hitems Hgo Hstop sel output.
    assert (output = ScraperJs.enumerated sel 0 (take k items)) as Hrun.
    { subst output. rewrite scrapeExperience_unfold, Hitems. cbv zeta.
      by rewrite (forItems_run _ _ k). }
    split; [done|]. split; [intros i item; apply itemRecords_skipped|].
    split; [intros i item; apply itemRecords_kept|].
    split; [rewrite Hrun; apply enumerated_surviving|].
    apply surviving_sorted.
  - intros page page' profileUrl config items records Hgoto Hitems Hall.
    split.
    + unfold ScraperTs.scrapeExperience, bind, await, get.
      rewrite Hgoto, Hitems.
      by rewrite (forExperienceItems_run _ _ _ _ _ Hall).
    + clear Hgoto Hitems.
      induction Hall as [|item rs ? ? Hitem _ IH]; constructor; [|done].
      by eapply itemOutcome_at_most_one.
Qed.


(** Failure isolation, where it holds.  In [scraper.js] no failure of an
    item ends the loop: with the stop flag not set up to item [k], the loop
    goes on behind item [k] with the record of item [k] appended, whatever
    threw while item [k] was processed; that record has all its keys, and
    [null] in the fields of each block that threw.  In the TypeScript
    variant, an item whose extraction (title, details, description) throws
    inside the [try] is left out, and the loop does for the other items what
    it does without that item. *)
Theorem item_failure_is_isolated :
  (∀ (scraperStopped : nat → bool) sel idx (pre : list Node) item post
     experiences,
     (∀ i, i ≤ length pre → scraperStopped (idx + i) = false) →
     ScraperJs.forItems scraperStopped sel idx (pre ++ item :: post)
       experiences
     = ScraperJs.forItems scraperStopped sel (S (idx + length pre)) post
         (experiences ++ ScraperJs.enumerated sel idx pre
          ++ ScraperJs.itemRecords sel (idx + length pre) item))
  ∧ (∀ sel idx (item : Node),
       (∀ children,
          query_all item (ScraperJs.experienceItem sel) = Ok children →
          length children ≤ 1) →
       ∃ data,
         ScraperJs.itemRecords sel idx item = [data]
         ∧ ScraperJs.complete data
         ∧ (∀ e, query_all item (ScraperJs.experienceItem sel) = Throw e →
                 data = ScraperJs.experienceData idx)
         ∧ (∀ e, ScraperJs.roleText sel item = Throw e →
                 data !! "role" = Some JNull)
         ∧ (∀ e, ScraperJs.detailsText sel item = Throw e →
                 data !! "company" = Some JNull
                 ∧ data !! "position" = Some JNull
                 ∧ data !! "duration" = Some JNull
                 ∧ data !! "location" = Some JNull)
         ∧ (∀ e, ScraperJs.skillDescText sel item = Throw e →
                 data !! "description" = Some JNull
                 ∧ data !! "skills" = Some JNull))
  ∧ (∀ profileUrl sel (pre : list Node) item post experienceData e,
       ScraperTs.isChildElement item (ScraperTs.experienceItem sel)
         = Ok false →
       ScraperTs.hasChildrenOfSameType item (ScraperTs.experienceItem sel)
         = Ok false →
       ScraperTs.extractExperience profileUrl sel item = Throw e →
       ScraperTs.forExperienceItems profileUrl sel (pre ++ item :: post)
         experienceData
       = ScraperTs.forExperienceItems profileUrl sel (pre ++ post)
           experienceData).
Proof.
  split; [|split].
  - intros scraperStopped sel idx pre item post experiences Hgo.
    rewrite forItems_app by (intros i Hi; apply Hgo; lia).
    rewrite forItems_cons, Hgo by lia.
    by rewrite <- (assoc (++)).
  - intros sel idx item Hfew.
    destruct (itemRecords_not_skipped sel idx item Hfew)
      as (data & Hdata & _ & _ & Hcheck & Hrole & Hdetails & Hdesc).
    exists data. split; [done|]. split.
    { apply Forall_singleton. rewrite <- Hdata.
      apply itemRecords_complete. }
    split; [done|]. split; [|split].
    + intros e He. apply Hrole. intros text. by rewrite He.
    + intros e He. apply Hdetails. intros text texts. by rewrite He.
    + intros e He. apply Hdesc. intros text texts. by rewrite He.
  - intros profileUrl sel pre item post experienceData e Hchild Hhas Hthrow.
    rewrite !forExperienceItems_app. unfold bind.
    destruct (ScraperTs.forExperienceItems profileUrl sel pre experienceData)
      as [data [[]|]]; [|done].
    rewrite forExperienceItems_cons. unfold ScraperTs.itemOutcome.
    rewrite Hchild. simpl. rewrite Hhas. simpl. rewrite Hthrow.
    by rewrite app_nil_r.
Qed.

End claims.

(** ** The target boundary *)

(** C5 (as amended).  In [scraper.js] a failure thrown while the section is
    extracted does not reach the target boundary: it is caught inside the
    extraction, and the outcome of the target is a success, with no error
    message and with [total_experiences] the number of its records.  What
    was extracted before the failure is retained: a failed enumeration
    leaves no record, and when the nested query of an item throws, the
    records of the items before it, then the record of the item as it was
    initialised, open the records of the outcome. *)
Theorem section_failure_is_absorbed `{Puppeteer Page Node}
    (scraperStopped : nat → bool) (page : Page) (url : jsstring)
    (config : ScraperJs.Config) :
  let sel := ScraperJs.selectors config in
  let outcome := ScraperJs.scrapeProfile scraperStopped page url config in
  ScraperJs.success outcome = true
  ∧ ScraperJs.error outcome = None
  ∧ ScraperJs.total_experiences outcome
    = length (ScraperJs.experiences outcome)
  ∧ (∀ e, page_query_all page (ScraperJs.experienceItem sel) = Throw e →
          ScraperJs.experiences outcome = [])
  ∧ (∀ pre item post e,
       page_query_all page (ScraperJs.experienceItem sel)
       = Ok (pre ++ item :: post) →
       query_all item (ScraperJs.experienceItem sel) = Throw e →
       (∀ i, i ≤ length pre → scraperStopped i = false) →
       (ScraperJs.enumerated sel 0 pre
          ++ [ScraperJs.experienceData (length pre)])
         `prefix_of` ScraperJs.experiences outcome).
Proof.
  intros sel outcome. subst outcome.
  unfold ScraperJs.scrapeProfile, ScraperJs.scrapeProfileWith.
  rewrite scrapeExperience_unfold. fold sel.
  destruct (page_query_all page _) as [items|e'] eqn:Hitems;
    [|by repeat split].
  cbn [ScraperJs.success ScraperJs.error ScraperJs.total_experiences
       ScraperJs.experiences].
  repeat split; try done.
  intros pre item post e [= ->] Hitem Hgo.
  rewrite forItems_app by (intros i Hi; apply Hgo; lia).
  cbn [Nat.add]. rewrite forItems_cons, Hgo by lia.
  assert (ScraperJs.itemRecords sel (length pre) item
          = [ScraperJs.experienceData (length pre)]) as ->.
  { unfold ScraperJs.itemRecords. by rewrite processItem_run, Hitem. }
  destruct (forItems_returns scraperStopped sel (S (length pre)) post
              (([] ++ ScraperJs.enumerated sel 0 pre)
                 ++ [ScraperJs.experienceData (length pre)]))
    as (k & _ & ->).
  simpl. by eexists.
Qed.

(** C5 as stated fails where the enumeration of the items throws, and where
    the nested query of the second of three items throws: the failure is
    thrown while the section is extracted, and the outcome is a success
    without an error message. *)
Lemma failed_extraction_is_reported_as_success :
  page_query_all closed_page
    (ScraperJs.experienceItem (ScraperJs.selectors js_config))
  = Throw (lit "Target closed")
  ∧ ScraperJs.success
      (ScraperJs.scrapeProfile never closed_page profile_url js_config)
    = true
  ∧ ScraperJs.error
      (ScraperJs.scrapeProfile never closed_page profile_url js_config)
    = None
  ∧ query_all stale_item
      (ScraperJs.experienceItem (ScraperJs.selectors js_config))
    = Throw (lit "detached")
  ∧ ScraperJs.success
      (ScraperJs.scrapeProfile never
         (profile_page [engineer; stale_item; analyst]) profile_url js_config)
    = true
  ∧ ScraperJs.error
      (ScraperJs.scrapeProfile never
         (profile_page [engineer; stale_item; analyst]) profile_url js_config)
    = None
  ∧ ScraperJs.total_experiences
      (ScraperJs.scrapeProfile never
         (profile_page [engineer; stale_item; analyst]) profile_url js_config)
    = 3.
Proof. by vm_compute. Qed.

(** C5 (as amended) at the two pages: the record of the first item and the
    initial record of the second one open the outcome; the closed page
    yields no record. *)
Lemma section_failure_is_absorbed_witness :
  (ScraperJs.enumerated (ScraperJs.selectors js_config) 0 [engineer]
     ++ [ScraperJs.experienceData 1])
    `prefix_of`
    ScraperJs.experiences
      (ScraperJs.scrapeProfile never
         (profile_page [engineer; stale_item; analyst]) profile_url js_config)
  ∧ ScraperJs.experiences
      (ScraperJs.scrapeProfile never closed_page profile_url js_config) = [].
Proof.
  destruct (section_failure_is_absorbed never
              (profile_page [engineer; stale_item; analyst]) profile_url
              js_config) as (_ & _ & _ & _ & Hitem).
  destruct (section_failure_is_absorbed never closed_page profile_url
              js_config) as (_ & _ & _ & Henumeration & _).
  split.
  - by apply (Hitem [engineer] stale_item [analyst] (lit "detached")).
  - by apply (Henumeration (lit "Target closed")).
Defined.

(** With the [scrapeExperience] of [scraper.js] itself the [catch] of
    [scrapeProfile] is never entered. *)
Lemma scrapeProfile_succeeds `{Puppeteer Page Node}
    (scraperStopped : nat → bool) (page : Page) (url : jsstring)
    (config : ScraperJs.Config) :
  ScraperJs.success (ScraperJs.scrapeProfile scraperStopped page url config)
    = true
  ∧ ScraperJs.error (ScraperJs.scrapeProfile scraperStopped page url config)
    = None.
Proof.
  unfold ScraperJs.scrapeProfile, ScraperJs.scrapeProfileWith.
  rewrite scrapeExperience_unfold.
  by destruct (page_query_all page _).
Qed.

(** ** The claims on the sample pages *)

(** C1 at three fragments. *)
Lemma description_skills_by_count_witness :
  fst (ScraperJs.decomposeDescriptionSkills
         [lit "About"; lit "Middle"; lit "Python"] ∅) !! "skills"
    = Some (JStr (lit "Python"))
  ∧ ScraperTs.readDescriptionSkills three_fragments
    = Ok (lit "About", lit "Middle").
Proof.
  destruct (description_skills_by_count (Node := FakeNode)
              [lit "About"; lit "Middle"; lit "Python"] ∅) as [Hjs Hts].
  split.
  - rewrite Hjs. by vm_compute.
  - apply (Hts three_fragments [lit "About"; lit "Middle"; lit "Python"]).
    by repeat constructor.
Defined.

(** C1 as stated fails in the TypeScript variant at the fragments About,
    Middle, Python: the skills are Middle, the second fragment, and not
    Python, the last one. *)
Lemma ts_skills_is_second_fragment :
  ScraperTs.evaluateTextOrEmpty <$> three_fragments
    = [Ok (lit "About"); Ok (lit "Middle"); Ok (lit "Python")]
  ∧ ScraperTs.readDescriptionSkills three_fragments
    = Ok (lit "About", lit "Middle")
  ∧ lit "Middle" ≠ lit "Python".
Proof. by vm_compute. Qed.

(** C7 at two fragments ([scraper.js]) and at four elements (TypeScript). *)
Lemma details_by_position_witness :
  fst (ScraperJs.decomposeDetails [lit "Initech"; lit "2018 - 2020"] ∅)
    !! "duration" = Some (JStr (lit "2018 - 2020"))
  ∧ ScraperTs.readDetails
      (two_details ++ [text_node (lit "Paris"); text_node (lit "extra")])
    = Ok (lit "Initech", lit "2018 - 2020", lit "Paris").
Proof.
  destruct (details_by_position (Node := FakeNode)
              (lit "Initech") (lit "2018 - 2020") [] ∅) as [Hjs Hts].
  split.
  - rewrite Hjs. by vm_compute.
  - apply (Hts _ [lit "Initech"; lit "2018 - 2020"; lit "Paris";
                  lit "extra"]).
    by repeat constructor.
Defined.

(** C7 as stated fails in the TypeScript variant at two detail elements:
    the second one reads 2018 - 2020, and the three fields stay empty. *)
Lemma ts_two_details_leave_dates_empty :
  ScraperTs.evaluateTextOrEmpty <$> two_details
    = [Ok (lit "Initech"); Ok (lit "2018 - 2020")]
  ∧ ScraperTs.readDetails two_details = Ok ([], [], [])
  ∧ lit "2018 - 2020" ≠ [].
Proof. by vm_compute. Qed.

(** C3.  The claim: an item that contains at least one descendant matching
    the item selector is skipped and produces no record.  [scraper.js]
    breaks it at an item with exactly one such descendant: on the page that
    enumerates the item and its descendant, the item is not skipped and its
    record is the first of the two records of the output.  The TypeScript
    variant skips the item (and its descendant, a child of an item). *)
Theorem single_nested_match_is_kept :
  length <$> query_all wrapper (lit "li") = Ok 1
  ∧ snd (ScraperJs.processItem (ScraperJs.selectors js_config) wrapper
           (ScraperJs.experienceData 0)) = Ok true
  ∧ length (fst (ScraperJs.scrapeExperience never
                   (profile_page [wrapper; nested_engineer]) js_config []))
    = 2
  ∧ fst (ScraperJs.scrapeExperience never
           (profile_page [wrapper; nested_engineer]) js_config [])
      !! 0 ≫= (.!! "role")
    = Some (JStr (lit "Acme Corp"))
  ∧ ScraperTs.hasChildrenOfSameType wrapper (lit "li") = Ok true
  ∧ length (fst (ScraperTs.scrapeExperience
                   (profile_page [wrapper; nested_engineer]) profile_url
                   ts_config [])) = 0.
Proof. by vm_compute. Qed.

(** Failure isolation at a page whose second item has a title query that
    throws. *)
Lemma item_failure_is_isolated_witness :
  ScraperTs.forExperienceItems profile_url (ScraperTs.experience (ScraperTs.selectors ts_config))
    [engineer; broken_title; analyst] []
  = ScraperTs.forExperienceItems profile_url (ScraperTs.experience (ScraperTs.selectors ts_config))
      [engineer; analyst] []
  ∧ (∃ data,
       ScraperJs.itemRecords (ScraperJs.selectors js_config) 1 broken_title
         = [data]
       ∧ data !! "role" = Some JNull)
  ∧ ScraperJs.forItems never (ScraperJs.selectors js_config) 0
      [engineer; broken_title; analyst] []
    = ScraperJs.forItems never (ScraperJs.selectors js_config) 2 [analyst]
        (ScraperJs.itemRecords (ScraperJs.selectors js_config) 0 engineer
         ++ ScraperJs.itemRecords (ScraperJs.selectors js_config) 1
              broken_title).
Proof.
  destruct (item_failure_is_isolated (Node := FakeNode))
    as (Hjs & Hrec & Hts).
  split; [|split].
  - apply (Hts profile_url (ScraperTs.experience (ScraperTs.selectors ts_config))
             [engineer] broken_title [analyst] [] (lit "detached"));
      by vm_compute.
  - destruct (Hrec (ScraperJs.selectors js_config) 1 broken_title)
      as (data & Hdata & _ & _ & Hrole & _).
    + intros children Hq. vm_compute in Hq. injection Hq as <-. simpl. lia.
    + exists data. split; [done|]. apply (Hrole (lit "detached")).
      by vm_compute.
  - by apply (Hjs never (ScraperJs.selectors js_config) 0
                [engineer] broken_title [analyst] []).
Defined.

(** C4.  The claim: when the processing of one item fails, the items after
    it are still processed and the section is not aborted.  The TypeScript
    variant breaks it when the check for nested items throws on the second
    of three items: the section call throws, the third item is never
    processed, and the one record collected so far is lost with the call;
    without the second item there are two records. *)
Theorem ts_check_failure_aborts_section :
  ScraperTs.hasChildrenOfSameType stale_item (lit "li")
    = Throw (lit "detached")
  ∧ snd (ScraperTs.scrapeExperience
           (profile_page [engineer; stale_item; analyst]) profile_url
           ts_config [])
    = Throw (lit "detached")
  ∧ length (fst (ScraperTs.scrapeExperience
                   (profile_page [engineer; stale_item; analyst]) profile_url
                   ts_config [])) = 1
  ∧ length (fst (ScraperTs.scrapeExperience
                   (profile_page [engineer; analyst]) profile_url
                   ts_config [])) = 2.
Proof. by vm_compute. Qed.

(** C6 at four items, the flag set once two of them are done. *)
Lemma stop_flag_halts_enumeration_witness :
  fst (ScraperJs.scrapeExperience (stopped_from 2)
         (profile_page [engineer; wrapper; analyst; broken_title])
         js_config [])
  = ScraperJs.enumerated (ScraperJs.selectors js_config) 0 [engineer; wrapper]
  ∧ ScraperJs.success
      (ScraperJs.scrapeProfile (stopped_from 2)
         (profile_page [engineer; wrapper; analyst; broken_title])
         profile_url js_config) = true.
Proof.
  destruct (stop_flag_halts_enumeration (stopped_from 2)
              (profile_page [engineer; wrapper; analyst; broken_title])
              js_config profile_url
              [engineer; wrapper; analyst; broken_title] 2)
    as [Hrun Hprofile].
  - done.
  - intros [|[|i]] Hi; [done..|lia].
  - done.
  - rewrite Hrun, Hprofile. split; reflexivity.
Defined.

(** C8 at four items, the second one skipped and the third one failing,
    with the stop flag set once three of them are done ([scraper.js]); at
    three items, the second one skipped (TypeScript). *)
Lemma records_keep_enumeration_order_witness :
  (.!! "index")
    <$> fst (ScraperJs.scrapeExperience (stopped_from 3)
               (profile_page [engineer; group; broken_title; analyst])
               js_config [])
  = [Some (JNum 0); Some (JNum 2)]
  ∧ fst (ScraperTs.scrapeExperience
           (profile_page [engineer; wrapper; analyst]) profile_url
           ts_config [])
    = or_nil (ScraperTs.itemOutcome profile_url
                (ScraperTs.experience (ScraperTs.selectors ts_config)) engineer)
      ++ or_nil (ScraperTs.itemOutcome profile_url
                   (ScraperTs.experience (ScraperTs.selectors ts_config)) analyst).
Proof.
  destruct (records_keep_enumeration_order (Node := FakeNode))
    as [Hjs Hts].
  split.
  - destruct (Hjs (stopped_from 3)
                (profile_page [engineer; group; broken_title; analyst])
                js_config [engineer; group; broken_title; analyst] 3)
      as (_ & _ & _ & Hindex & _).
    + done.
    + intros [|[|[|i]]] Hi; [done..|lia].
    + done.
    + rewrite Hindex. by vm_compute.
  - destruct (Hts (profile_page [engineer; wrapper; analyst])
                (profile_page [engineer; wrapper; analyst])
                profile_url ts_config [engineer; wrapper; analyst]
                [or_nil (ScraperTs.itemOutcome profile_url
                           (ScraperTs.experience (ScraperTs.selectors ts_config)) engineer);
                 [];
                 or_nil (ScraperTs.itemOutcome profile_url
                           (ScraperTs.experience (ScraperTs.selectors ts_config)) analyst)])
      as [-> _]; [reflexivity|reflexivity| |reflexivity].
    constructor; [apply ok_or_nil; by vm_compute|].
    constructor; [by vm_compute|].
    constructor; [apply ok_or_nil; by vm_compute|].
    constructor.
Defined.

(** C10 at four detail elements, two of them blank. *)
Lemma fragments_are_nonempty_witness :
  ScraperJs.collectText padded_details []
    = Ok [lit "Initech"; lit "2018 - 2020"]
  ∧ ScraperJs.collectText padded_details []
    = ScraperJs.collectText
        [text_node (lit " Initech "); text_node (lit "2018 - 2020")] [].
Proof.
  destruct (fragments_are_nonempty (Node := FakeNode))
    as (_ & _ & Hfilter & Hshift).
  split.
  - by rewrite (Hfilter padded_details
                  [lit "  "; lit " Initech "; []; lit "2018 - 2020"])
      by (by repeat constructor).
  - unfold padded_details.
    rewrite (Hshift [] [text_node (lit " Initech "); text_node [];
                        text_node (lit "2018 - 2020")]
               (text_node (lit "  ")) (lit "  ") eq_refl eq_refl
             : ScraperJs.collectText (_ :: _) [] = _).
    exact (Hshift [text_node (lit " Initech ")]
             [text_node (lit "2018 - 2020")] (text_node []) []
             eq_refl eq_refl).
Defined.


(** * The rest of [scraper.js] *)

(** ** The key listener *)

Section keyboard.
Import ScraperJsRun.

Lemma onData_flags_after n key :
  onData (flags_after n) key =
  if is_exit key then None
  else Some (flags_after (if is_s key then S n else n)).
Proof.
  unfold onData. destruct (is_exit key); [done|].
  destruct (is_s key); [|done]. f_equal. unfold flags_after. simpl.
  destruct n as [|[|n]]; done.
Qed.

Lemma onChunks_flags_after n keys :
  onChunks (flags_after n) keys =
  if existsb is_exit keys then None
  else Some (flags_after (n + length (filter (λ key, is_s key = true) keys))).
Proof.
  revert n. induction keys as [|key rest IH]; intros n.
  - simpl. by rewrite Nat.add_0_r.
  - cbn [onChunks existsb]. rewrite onData_flags_after.
    destruct (is_exit key); [done|]. simpl. rewrite IH.
    destruct (existsb is_exit rest); [done|]. rewrite filter_cons.
    case_decide as Hs.
    + rewrite Hs. simpl. do 2 f_equal. lia.
    + by apply not_true_is_false in Hs as ->.
Qed.

(** The two flags only ever count the chunks that are the key s: the first
    one starts the run, the second one stops it, every other chunk is
    ignored, and Ctrl+C or Escape ends the process.  So the run is never
    stopped before it was started, and a flag that is set stays set. *)
Theorem keys_start_then_stop (keys : list jsstring) :
  let presses := length (filter (λ key, is_s key = true) keys) in
  onChunks initial keys =
    (if existsb is_exit keys then None
     else Some {| scraperStarted := 1 <=? presses;
                  scraperStopped := 2 <=? presses |})
  ∧ (∀ flags, onChunks initial keys = Some flags →
              scraperStopped flags = true → scraperStarted flags = true)
  ∧ (∀ flags more flags',
       onChunks initial keys = Some flags →
       onChunks initial (keys ++ more) = Some flags' →
       (scraperStarted flags = true → scraperStarted flags' = true)
       ∧ (scraperStopped flags = true → scraperStopped flags' = true)).
Proof.
  intros presses.
  assert (onChunks initial keys =
          if existsb is_exit keys then None else Some (flags_after presses))
    as Hrun by apply (onChunks_flags_after 0).
  split; [done|]. split.
  - intros flags. rewrite Hrun. destruct (existsb is_exit keys); [done|].
    intros [= <-]. unfold flags_after. cbn [scraperStarted scraperStopped].
    intros ?%Nat.leb_le. apply Nat.leb_le. lia.
  - intros flags more flags'. rewrite Hrun.
    rewrite (onChunks_flags_after 0). rewrite existsb_app, filter_app, length_app.
    destruct (existsb is_exit keys); [done|]. cbn [orb].
    destruct (existsb is_exit more); [done|].
    intros [= <-] [= <-]. unfold flags_after.
    cbn [scraperStarted scraperStopped]. fold presses.
    split; intros ?%Nat.leb_le; apply Nat.leb_le; lia.
Qed.
End keyboard.

(** ** Loading the pages and the run *)

Section js_run.
Import ScraperJs ScraperJsRun.
Context `{Puppeteer Page Node} `{!Browser Page}.


(** What the outcome of a value that is no page is. *)
Lemma scrapeProfile_of_no_page stopped (url_ : jsstring) config :
  scrapeProfileWith (scrapeExperienceOfNoPage stopped config) url_ =
  {| url := url_; success := true; experiences := [];
     total_experiences := 0; error := None |}.
Proof. done. Qed.

(** What one iteration pushes. *)
Lemma forUrls_cons (sU : nat → bool) (sI : nat → nat → bool)
    (pages : gmap jsstring Page) config u url_ rest acc :
  forUrls sU sI pages config u (url_ :: rest) acc =
  if sU u then (acc, Ok tt)
  else forUrls sU sI pages config (S u) rest
         (acc ++ match pages !! url_ with
                 | Some page => [scrapeProfile (sI u) page url_ config]
                 | None =>
                     if inherited url_
                     then [{| url := url_; success := true; experiences := [];
                              total_experiences := 0; error := None |}]
                     else []
                 end).
Proof.
  cbn [forUrls]. destruct (sU u); [done|].
  destruct (pages !! url_); [done|].
  destruct (inherited url_); [done|]. by rewrite app_nil_r.
Qed.



Lemma forUrls_stop (sU : nat → bool) (sI : nat → nat → bool)
    (pages : gmap jsstring Page) config k urls u acc :
  (∀ i, i < k → sU (u + i) = false) →
  (k < length urls → sU (u + k) = true) →
  forUrls sU sI pages config u urls acc =
  forUrls (λ _, false) sI pages config u (take k urls) acc.
Proof.
  revert k u acc. induction urls as [|url_ rest IH]; intros k u acc Hgo Hstop.
  - by rewrite take_nil.
  - destruct k as [|k].
    + rewrite forUrls_cons. rewrite Nat.add_0_r in Hstop.
      by rewrite Hstop by (simpl; lia).
    + rewrite firstn_cons, !forUrls_cons.
      assert (sU u = false) as ->
        by (rewrite <- (Nat.add_0_r u); apply Hgo; lia).
      apply IH.
      * intros i Hi. replace (S u + i) with (u + S i) by lia. apply Hgo. lia.
      * intros Hk. replace (S u + k) with (u + S k) by lia.
        apply Hstop. simpl. lia.
Qed.

Lemma forUrls_selectors (sU : nat → bool) (sI : nat → nat → bool)
    (pages : gmap jsstring Page) config config' u urls acc :
  selectors config = selectors config' →
  forUrls sU sI pages config u urls acc = forUrls sU sI pages config' u urls acc.
Proof.
  intros Hsel. revert u acc. induction urls as [|url_ rest IH]; intros u acc.
  - done.
  - rewrite !forUrls_cons. destruct (sU u); [done|]. rewrite IH.
    do 2 f_equal. destruct (pages !! url_); [|done]. f_equal.
    unfold scrapeProfile, scrapeProfileWith.
    rewrite !scrapeExperience_unfold. by rewrite Hsel.
Qed.

(** When the loop of [main] first reads the stop flag set at the head of
    url [k], [profiles] is what a run that is never stopped between two urls
    yields on the first [k] urls, while [total_profiles] still counts every
    configured url. *)
Theorem stop_flag_halts_run (stoppedAtUrl : nat → bool)
    (stoppedAtItem : nat → nat → bool) (pages : gmap jsstring Page)
    (config : Config) (k : nat) :
  (∀ i, i < k → stoppedAtUrl i = false) →
  stoppedAtUrl k = true →
  profiles (scrapeAll stoppedAtUrl stoppedAtItem pages config)
  = profiles (scrapeAll (λ _, false) stoppedAtItem pages
                {| selectors := selectors config;
                   urls := take k (urls config) |})
  ∧ total_profiles (scrapeAll stoppedAtUrl stoppedAtItem pages config)
    = length (urls config).
Proof.
  intros Hgo Hstop. split; [|done]. unfold scrapeAll.
  cbn [profiles urls]. f_equal.
  rewrite (forUrls_stop _ _ _ _ k) by done.
  by apply forUrls_selectors.
Qed.









(** ** Tidy records *)

Local Ltac run := unfold bind, ret, assign, await, try_catch, push, get; simpl.

Lemma preserves_tidy_assign key v :
  tidy_field key v → preserves (map_Forall tidy_field) (assign key v).
Proof. intros Hv data Hdata. unfold assign. simpl. by apply map_Forall_insert_2. Qed.

Lemma tidy_null key : tidy_field key JNull.
Proof. by intros s. Qed.

Lemma tidy_text key (s : jsstring) : trimmed s → s ≠ [] → tidy_field key (JStr s).
Proof. by intros Ht Hs s' [= <-]. Qed.

Lemma experienceData_tidy idx : map_Forall tidy_field (experienceData idx).
Proof.
  unfold experienceData.
  repeat (apply map_Forall_insert_2; [by intros s|]). apply map_Forall_empty.
Qed.

Lemma evaluateText_trimmed (el : Node) text :
  evaluateText el = Ok text → trimmed text.
Proof.
  unfold evaluateText. destruct (textContent el); [|done].
  intros [= <-]. apply trim_idemp.
Qed.

Lemma collectText_tidy (elems : list Node) texts :
  collectText elems [] = Ok texts →
  Forall (λ text, trimmed text ∧ text ≠ []) texts.
Proof.
  revert texts. induction elems as [|el rest IH]; intros texts.
  - intros [= <-]. constructor.
  - rewrite collectText_cons.
    destruct (evaluateText el) as [text|] eqn:Hel; [|done]. simpl.
    destruct (collectText rest []) as [texts'|]; [|done]. simpl.
    intros [= <-]. specialize (IH _ eq_refl).
    destruct (truthy text) eqn:Htext; [|done]. constructor; [|done].
    split; [by eapply evaluateText_trimmed|by apply truthy_nonempty].
Qed.

Lemma decomposeCompany_tidy companyInfo :
  trimmed companyInfo → companyInfo ≠ [] →
  preserves (map_Forall tidy_field) (decomposeCompany companyInfo).
Proof.
  intros Htrim Hne. unfold decomposeCompany.
  destruct (split middle_dot companyInfo) as [|part0 [|part1 more]] eqn:Hsplit;
    try (apply preserves_bind; [|intros _];
         apply preserves_tidy_assign; first [apply tidy_null|by apply tidy_text]).
  apply preserves_bind; [|intros _]; apply preserves_tidy_assign.
  - apply tidy_text; [apply trim_idemp|].
    rewrite split_unfold in Hsplit by done.
    destruct (indexOf middle_dot companyInfo) as [j|] eqn:Hj; [|done].
    injection Hsplit as <- _.
    destruct companyInfo as [|c r]; [done|].
    assert (is_white_space c = false) as Hc
      by (eapply trim_head; exact Htrim).
    destruct j as [|j].
    + apply indexOf_Some in Hj as [Heq _]. simpl in Heq.
      injection Heq as -> _. done.
    + rewrite firstn_cons, trim_cons by done. done.
  - intros s [= <-]. split; [apply trim_idemp|]. by intros _ [].
Qed.

Lemma decomposeDetails_tidy texts :
  Forall (λ text, trimmed text ∧ text ≠ []) texts →
  preserves (map_Forall tidy_field) (decomposeDetails texts).
Proof.
  intros Htexts. unfold decomposeDetails.
  apply preserves_bind; [|intros _; apply preserves_bind; [|intros _]].
  - destruct (texts !! 0) as [text|] eqn:Ht; [|apply preserves_ret].
    apply (Forall_lookup_1 _ _ _ _ Htexts) in Ht as [? ?].
    by apply decomposeCompany_tidy.
  - destruct (texts !! 1) as [text|] eqn:Ht; [|apply preserves_ret].
    apply (Forall_lookup_1 _ _ _ _ Htexts) in Ht as [? ?].
    by apply preserves_tidy_assign, tidy_text.
  - destruct (texts !! 2) as [text|] eqn:Ht; [|apply preserves_ret].
    apply (Forall_lookup_1 _ _ _ _ Htexts) in Ht as [? ?].
    by apply preserves_tidy_assign, tidy_text.
Qed.

Lemma decomposeDescriptionSkills_tidy texts :
  Forall (λ text, trimmed text ∧ text ≠ []) texts →
  preserves (map_Forall tidy_field) (decomposeDescriptionSkills texts).
Proof.
  intros Htexts data Hdata. rewrite decomposeDescriptionSkills_run. simpl.
  apply (preserves_tidy_assign "skills").
  { destruct (last texts) as [text|] eqn:Hlast; simpl; [|apply tidy_null].
    rewrite last_lookup in Hlast.
    apply (Forall_lookup_1 _ _ _ _ Htexts) in Hlast as [? ?].
    by apply tidy_text. }
  apply (preserves_tidy_assign "description"); [|done].
  destruct Htexts as [|first ? [? ?] [|]]; try apply tidy_null.
  by apply tidy_text.
Qed.

Lemma processItem_tidy sel item idx data :
  processItem sel item (experienceData idx) = (data, Ok true) →
  map_Forall tidy_field data.
Proof.
  rewrite processItem_run. pose proof (experienceData_tidy idx) as Hdata.
  destruct (query_all item (experienceItem sel)) as [children|];
    [|by intros [= <-]].
  destruct (1 <? length children); [done|]. intros [= <-].
  rewrite getDescriptionSkills_run, getDetails_run, getRole_run. simpl.
  revert Hdata. generalize (experienceData idx). intros data Hdata.
  assert (map_Forall tidy_field
            (match roleText sel item with
             | Ok (Some text) => <["role" := JStr text]> data
             | _ => data
             end)) as Hrole.
  { unfold roleText.
    destruct (query item (role sel)) as [[el|]|]; simpl; try done.
    destruct (evaluateText el) as [text|] eqn:Hel; simpl; [|done].
    apply (preserves_tidy_assign "role"); [|done].
    intros s [= <-]. split; [by eapply evaluateText_trimmed|done]. }
  revert Hrole. generalize (match roleText sel item with
                            | Ok (Some text) => <["role" := JStr text]> data
                            | _ => data
                            end).
  intros data1 Hrole.
  assert (map_Forall tidy_field
            (match detailsText sel item with
             | Ok texts => fst (decomposeDetails texts data1)
             | Throw _ => data1
             end)) as Hdetails.
  { unfold detailsText.
    destruct (query_all item (companyAndDetails sel)) as [elems|]; [|done].
    simpl. destruct (collectText elems []) as [texts|] eqn:Htexts; [|done].
    by apply decomposeDetails_tidy; [eapply collectText_tidy|]. }
  unfold skillDescText.
  destruct (query_all item (skills_and_description sel)) as [elems|]; [|done].
  simpl. destruct (collectText elems []) as [texts|] eqn:Htexts; [|done].
  by apply decomposeDescriptionSkills_tidy; [eapply collectText_tidy|].
Qed.

Lemma itemRecords_tidy sel idx item :
  Forall (λ data : obj, data !! "has_children" = Some (JBool false)
                        ∧ map_Forall tidy_field data)
    (itemRecords sel idx item).
Proof.
  apply Forall_forall. intros data Hdata.
  destruct (itemRecords_not_skipped sel idx item
              (itemRecords_pushed _ _ _ _ Hdata)) as (data' & Heq & _ & Hc & _).
  rewrite Heq in Hdata. apply list_elem_of_singleton in Hdata as ->.
  split; [done|]. unfold itemRecords in Heq.
  destruct (processItem sel item (experienceData idx)) as [d [[|]|]] eqn:Hp;
    try done.
  injection Heq as <-. by eapply processItem_tidy.
Qed.

Lemma enumerated_tidy sel idx items :
  Forall (λ data : obj, data !! "has_children" = Some (JBool false)
                        ∧ map_Forall tidy_field data)
    (enumerated sel idx items).
Proof.
  revert idx. induction items as [|item rest IH]; intros idx.
  - constructor.
  - rewrite enumerated_cons. apply Forall_app.
    split; [apply itemRecords_tidy|apply IH].
Qed.

(** The records [scrapeProfile] returns: [has_children] is [false] in every
    one of them (it is set to [true] only on items that are then skipped),
    and a text field holds [null] or a trimmed string, which is never the
    empty string under [company], [duration], [location], [description] and
    [skills]. *)
Theorem js_records_are_tidy (scraperStopped : nat → bool) (page : Page)
    (url_ : jsstring) (config : Config) :
  Forall (λ data : obj,
            data !! "has_children" = Some (JBool false)
            ∧ map_Forall tidy_field data)
    (experiences (scrapeProfile scraperStopped page url_ config)).
Proof.
  unfold scrapeProfile, scrapeProfileWith. rewrite scrapeExperience_unfold.
  destruct (page_query_all page _) as [items|]; [|constructor].
  cbn [experiences].
  destruct (forItems_returns scraperStopped (selectors config) 0 items [])
    as (k & _ & ->).
  apply enumerated_tidy.
Qed.
End js_run.

(** * The rest of the TypeScript variant *)

(** ** The selector of the detail elements *)

Section details_query.
Import ScraperTs.

(** The selector handed to [item.$$] for the details: what stands before the
    first [" > "] of the details selector once the item selector is removed,
    then [" > "], then all that stands behind the first [" > "] of the
    details selector as configured.  Without a [" > "] in the details
    selector the query ends in a child combinator with nothing behind it. *)
Theorem detailsQuery_parts (itemSelector detailsSelector head : jsstring) :
  up_to child_combinator
    (replace (itemSelector ++ space) [] detailsSelector) head →
  (∀ before after,
     first_occurrence child_combinator detailsSelector before after →
     detailsQuery itemSelector detailsSelector
     = head ++ child_combinator ++ after)
  ∧ (¬ occurs child_combinator detailsSelector →
     detailsQuery itemSelector detailsSelector = head ++ child_combinator).
Proof.
  intros Hhead. rewrite (detailsQuery_head _ _ _ Hhead). split.
  - intros before after Hfirst. by rewrite (detailsQuery_tail _ _ _ Hfirst).
  - intros Hno. rewrite split_no_delimiter by done. cbn [drop join].
    by rewrite app_nil_r.
Qed.

(** The case the construction is made for: the details selector is the item
    selector, a space, and a selector [parent > child] with no child
    combinator before that one.  The query is [parent > child]. *)
Theorem detailsQuery_scoped (itemSelector parent child : jsstring) :
  first_occurrence child_combinator
    (itemSelector ++ space ++ parent ++ child_combinator ++ child)
    (itemSelector ++ space ++ parent) child →
  detailsQuery itemSelector
    (itemSelector ++ space ++ parent ++ child_combinator ++ child)
  = parent ++ child_combinator ++ child.
Proof.
  intros Hfirst.
  assert (first_occurrence child_combinator
            (parent ++ child_combinator ++ child) parent child) as Hinner.
  { split; [done|]. intros l r Hlr. destruct Hfirst as [_ Hmin].
    specialize (Hmin (itemSelector ++ space ++ l) r).
    rewrite !length_app in Hmin. rewrite Hlr in Hmin.
    rewrite <- !(assoc (++)) in Hmin. specialize (Hmin eq_refl). lia. }
  rewrite (detailsQuery_head _ _ parent).
  - do 2 f_equal.
    by apply (detailsQuery_tail _ (itemSelector ++ space ++ parent)).
  - rewrite (assoc (++) itemSelector), replace_prefix. right. eauto.
Qed.

(** An item selector that itself has a child combinator: what stands behind
    the first one leaks into the query, together with the details selector
    that was to be scoped. *)
Theorem detailsQuery_item_selector_leaks
    (itemSelector before after rest head : jsstring) :
  first_occurrence child_combinator itemSelector before after →
  up_to child_combinator rest head →
  detailsQuery itemSelector (itemSelector ++ space ++ rest)
  = head ++ child_combinator ++ after ++ space ++ rest.
Proof.
  intros Hitem Hhead.
  rewrite (detailsQuery_head _ _ head)
    by by rewrite (assoc (++)), replace_prefix.
  do 2 f_equal. apply (detailsQuery_tail _ before).
  by apply first_occurrence_app_r.
Qed.

End details_query.

(** ** The run and the export *)

Section ts_run.
Import ScraperTs ScraperTsRun.
Context `{Puppeteer Page Node}.

Local Ltac run := unfold bind, ret, assign, await, try_catch, push, get; simpl.

Lemma scrapeSections_records (page : Page) config profileUrl all :
  scrapeSections page config profileUrl all =
  (all.1 ++ sectionRecords (scrapeExperience page profileUrl config),
   all.2 ++ sectionRecords (scrapeEducation page profileUrl config)).
Proof.
  unfold scrapeSections, sectionRecords.
  destruct (scrapeExperience page profileUrl config []) as [? [?|?]],
           (scrapeEducation page profileUrl config []) as [? [?|?]];
    by rewrite ?app_nil_r.
Qed.

Lemma foldl_scrapeSections (page : Page) config profiles all :
  foldl (λ all profileUrl, scrapeSections page config profileUrl all)
    all profiles =
  (all.1 ++ (profiles ≫= λ profileUrl,
               sectionRecords (scrapeExperience page profileUrl config)),
   all.2 ++ (profiles ≫= λ profileUrl,
               sectionRecords (scrapeEducation page profileUrl config))).
Proof.
  revert all. induction profiles as [|profileUrl rest IH]; intros all.
  - simpl. rewrite !app_nil_r. by destruct all.
  - cbn [foldl]. rewrite IH, scrapeSections_records. cbn [fst snd].
    rewrite !bind_cons. by rewrite <- !(assoc (++)).
Qed.

Lemma forProfiles_records (page : Page) config profiles :
  forProfiles page config profiles =
  (profiles ≫= (λ profileUrl,
      sectionRecords (scrapeExperience page profileUrl config)),
   profiles ≫= (λ profileUrl,
      sectionRecords (scrapeEducation page profileUrl config))).
Proof. unfold forProfiles. by rewrite foldl_scrapeSections. Qed.

(** The experience section: the state the call ends with is what it
    returns, and nothing when it throws. *)
Lemma scrapeExperience_records (page : Page) profileUrl config :
  sectionRecords (scrapeExperience page profileUrl config) =
  match goto page (profileUrl ++ lit "/details/experience") with
  | Ok page' =>
      match page_query_all page' (experienceItem (experience (selectors config))) with
      | Ok items =>
          match forExperienceItems profileUrl (experience (selectors config))
                  items [] with
          | (experienceData, Ok _) => experienceData
          | (_, Throw _) => []
          end
      | Throw _ => []
      end
  | Throw _ => []
  end.
Proof.
  unfold sectionRecords, scrapeExperience. run.
  destruct (goto page _) as [page'|]; [|done]. simpl.
  destruct (page_query_all page' _) as [items|]; [|done]. simpl.
  by destruct (forExperienceItems _ _ _ _) as [data [[]|]].
Qed.

Lemma scrapeEducation_records (page : Page) profileUrl config :
  sectionRecords (scrapeEducation page profileUrl config) =
  match goto page (profileUrl ++ lit "/details/education") with
  | Ok page' =>
      match page_query_all page' (educationItem (education (selectors config))) with
      | Ok items =>
          items ≫= educationRecords profileUrl (education (selectors config))
      | Throw _ => []
      end
  | Throw _ => []
  end.
Proof.
  unfold sectionRecords, scrapeEducation. run.
  destruct (goto page _) as [page'|]; [|done]. simpl.
  destruct (page_query_all page' _) as [items|]; [|done]. simpl.
  by rewrite forEducationItems_run, mjoin_fmap_bind.
Qed.

Lemma scrapeExperience_Forall (P : obj → Prop) (page : Page) profileUrl config :
  (∀ item record,
     extractExperience profileUrl (experience (selectors config)) item
     = Ok record → P record) →
  Forall P (sectionRecords (scrapeExperience page profileUrl config)).
Proof.
  intros Hrecord. rewrite scrapeExperience_records.
  destruct (goto page _) as [page'|]; [|done].
  destruct (page_query_all page' _) as [items|]; [|done].
  pose proof (forExperienceItems_invariant P profileUrl
                (experience (selectors config)) items [] Hrecord
                (Forall_nil_2 _)) as Hall.
  by destruct (forExperienceItems _ _ _ _) as [data [[]|]].
Qed.

Lemma scrapeEducation_Forall (P : obj → Prop) (page : Page) profileUrl config :
  (∀ item record,
     extractEducation profileUrl (education (selectors config)) item
     = Ok record → P record) →
  Forall P (sectionRecords (scrapeEducation page profileUrl config)).
Proof.
  intros Hrecord. rewrite scrapeEducation_records.
  destruct (goto page _) as [page'|]; [|done].
  destruct (page_query_all page' _) as [items|]; [|done].
  apply Forall_forall. intros record (item & Hin & _)%list_elem_of_bind.
  unfold educationRecords in Hin.
  destruct (extractEducation _ _ item) eqn:Hitem; [|by apply elem_of_nil in Hin].
  apply list_elem_of_singleton in Hin as ->. by eapply Hrecord.
Qed.

Lemma forProfiles_Forall (PX PE : jsstring → obj → Prop) (page : Page) config
    (profiles : list jsstring) :
  (∀ profileUrl item record,
     extractExperience profileUrl (experience (selectors config)) item
     = Ok record → PX profileUrl record) →
  (∀ profileUrl item record,
     extractEducation profileUrl (education (selectors config)) item
     = Ok record → PE profileUrl record) →
  Forall (λ record, ∃ profileUrl, profileUrl ∈ profiles ∧ PX profileUrl record)
    (forProfiles page config profiles).1
  ∧ Forall (λ record, ∃ profileUrl, profileUrl ∈ profiles ∧ PE profileUrl record)
      (forProfiles page config profiles).2.
Proof.
  intros HX HE. rewrite forProfiles_records. cbn [fst snd].
  split; apply Forall_forall; intros record (profileUrl & Hin & Hp)%list_elem_of_bind;
    exists profileUrl; (split; [done|]).
  - pose proof (scrapeExperience_Forall (PX profileUrl) page profileUrl config
                  (HX profileUrl)) as Hall.
    by apply (proj1 (Forall_forall _ _) Hall).
  - pose proof (scrapeEducation_Forall (PE profileUrl) page profileUrl config
                  (HE profileUrl)) as Hall.
    by apply (proj1 (Forall_forall _ _) Hall).
Qed.

Lemma extractExperience_profil profileUrl sel (item : Node) record :
  extractExperience profileUrl sel item = Ok record →
  record !! "Profil" = Some (JStr profileUrl).
Proof.
  unfold extractExperience, mbind, result_bind, mret, result_ret.
  repeat case_match; try done; intros [= <-]; apply lookup_insert_eq.
Qed.

Lemma extractEducation_profil profileUrl sel (item : Node) record :
  extractEducation profileUrl sel item = Ok record →
  record !! "Profil" = Some (JStr profileUrl).
Proof.
  unfold extractEducation, mbind, result_bind, mret, result_ret.
  repeat case_match; try done; intros [= <-]; apply lookup_insert_eq.
Qed.

(** The loop of [main] over the profiles: the two arrays are the records of
    the section calls, profile after profile.  A call that throws (as when
    its navigation fails) adds nothing, and neither the other section of the
    profile nor the profiles behind are affected. *)
Theorem sections_fail_alone (page : Page) (config : Config)
    (profiles : list jsstring) :
  forProfiles page config profiles =
  (profiles ≫= (λ profileUrl,
      sectionRecords (scrapeExperience page profileUrl config)),
   profiles ≫= (λ profileUrl,
      sectionRecords (scrapeEducation page profileUrl config)))
  ∧ (∀ profileUrl e,
       goto page (profileUrl ++ lit "/details/experience") = Throw e →
       sectionRecords (scrapeExperience page profileUrl config) = [])
  ∧ (∀ profileUrl e,
       goto page (profileUrl ++ lit "/details/education") = Throw e →
       sectionRecords (scrapeEducation page profileUrl config) = []).
Proof.
  split; [apply forProfiles_records|]. split; intros profileUrl e Hgoto.
  - by rewrite scrapeExperience_records, Hgoto.
  - by rewrite scrapeEducation_records, Hgoto.
Qed.

(** Every row of the two arrays names, under [Profil], a profile of the
    configuration. *)
Theorem rows_name_a_configured_profile (page : Page) (config : Config) :
  let all := forProfiles page config (profiles config) in
  Forall (λ record : obj,
            ∃ profileUrl, profileUrl ∈ profiles config
                          ∧ record !! "Profil" = Some (JStr profileUrl))
    (all.1 ++ all.2).
Proof.
  intros all. subst all.
  destruct (forProfiles_Forall
              (λ profileUrl record, record !! "Profil" = Some (JStr profileUrl))
              (λ profileUrl record, record !! "Profil" = Some (JStr profileUrl))
              page config (profiles config)) as [HX HE].
  - intros ? ? ?. apply extractExperience_profil.
  - intros ? ? ?. apply extractEducation_profil.
  - by apply Forall_app.
Qed.

(** The export: no workbook is written exactly when nothing was extracted;
    a workbook that is written has at least one sheet and no empty sheet,
    the experience sheet before the education sheet, and its rows are the
    extracted records, all of them, in their order. *)
Theorem workbook_holds_the_rows (page : Page) (config : Config) :
  let all := forProfiles page config (profiles config) in
  (exported page config = None ↔ all = ([], []))
  ∧ (∀ workbook, exported page config = Some workbook →
       workbook = exportToExcel all.1 all.2
       ∧ workbook ≠ []
       ∧ Forall (λ sheet, sheet.2 ≠ []) workbook
       ∧ workbook.*1 `sublist_of` ["Expérience"; "Éducation"]
       ∧ mjoin workbook.*2 = all.1 ++ all.2).
Proof.
  intros all. subst all. unfold exported, exportToExcel.
  destruct (forProfiles page config (profiles config)) as [[|x xs] [|e es]];
    cbn [fst snd length Nat.ltb Nat.leb orb app].
  - split; [done|]. by intros workbook.
  - split; [done|]. intros workbook [= <-].
    repeat split; simpl; rewrite ?app_nil_r; try done; by repeat constructor.
  - split; [done|]. intros workbook [= <-].
    repeat split; simpl; rewrite ?app_nil_r; try done; by repeat constructor.
  - split; [done|]. intros workbook [= <-].
    repeat split; simpl; rewrite ?app_nil_r; try done; by repeat constructor.
Qed.

(** The education loop has no check outside its [try]: once the items are
    enumerated the call returns, with the records of the items in their
    order, at most one for each; an item whose extraction throws is left out
    and the other items are read as if it were not on the page. *)
Theorem education_items_fail_alone (page page' : Page) (profileUrl : jsstring)
    (config : Config) (items : list Node) :
  goto page (profileUrl ++ lit "/details/education") = Ok page' →
  page_query_all page' (educationItem (education (selectors config)))
  = Ok items →
  let records :=
    items ≫= educationRecords profileUrl (education (selectors config)) in
  scrapeEducation page profileUrl config [] = (records, Ok records)
  ∧ length records ≤ length items
  ∧ (∀ pre item post e,
       items = pre ++ item :: post →
       extractEducation profileUrl (education (selectors config)) item
       = Throw e →
       records
       = (pre ++ post)
           ≫= educationRecords profileUrl (education (selectors config))).
Proof.
  intros Hgoto Hitems records. subst records. split; [|split].
  - unfold scrapeEducation. run. rewrite Hgoto. simpl. rewrite Hitems. simpl.
    by rewrite forEducationItems_run, mjoin_fmap_bind.
  - clear Hitems. induction items as [|item rest IH]; [done|].
    rewrite bind_cons, length_app. unfold educationRecords at 1.
    destruct (extractEducation _ _ item); simpl; lia.
  - intros pre item post e -> Hitem. rewrite !bind_app, bind_cons.
    unfold educationRecords at 2. by rewrite Hitem.
Qed.

(** ** Trimmed text *)

Lemma evaluateTextOrEmpty_trimmed (el : Node) text :
  evaluateTextOrEmpty el = Ok text → trimmed text.
Proof.
  unfold evaluateTextOrEmpty. destruct (textContent el) as [t|]; [|done].
  intros [= <-]. unfold or_empty. destruct (truthy (trim t)); [|done].
  apply trim_idemp.
Qed.

Lemma trimmed_nil : trimmed [].
Proof. done. Qed.

Lemma trimmed_null_text : trimmed null_text.
Proof. by vm_compute. Qed.

Lemma trimmed_field_text key (s : jsstring) :
  trimmed s → trimmed_field key (JStr s).
Proof. intros Hs _. eauto. Qed.

Lemma optional_text_trimmed (element : option Node) text :
  match element with
  | Some el => evaluateTextOrEmpty el
  | None => mret []
  end = Ok text →
  trimmed text.
Proof.
  destruct element as [el|]; [apply evaluateTextOrEmpty_trimmed|].
  by intros [= <-].
Qed.

Lemma readDetails_trimmed (detailsElements : list Node) a b c :
  readDetails detailsElements = Ok (a, b, c) →
  trimmed a ∧ trimmed b ∧ trimmed c.
Proof.
  unfold readDetails.
  destruct detailsElements as [|el0 [|el1 [|el2 more]]];
    try (intros [= <- <- <-]; by repeat split).
  unfold mbind, result_bind, mret, result_ret.
  destruct (evaluateTextOrEmpty el0) eqn:H0; [|done].
  destruct (evaluateTextOrEmpty el1) eqn:H1; [|done].
  destruct (evaluateTextOrEmpty el2) eqn:H2; [|done].
  intros [= <- <- <-]. repeat split; by eapply evaluateTextOrEmpty_trimmed.
Qed.

Lemma readDescriptionSkills_trimmed (descriptionElements : list Node) a b :
  readDescriptionSkills descriptionElements = Ok (a, b) →
  trimmed a ∧ trimmed b.
Proof.
  unfold readDescriptionSkills, mbind, result_bind, mret, result_ret.
  destruct descriptionElements as [|el0 [|el1 more]].
  - intros [= <- <-]. split; apply trimmed_null_text.
  - destruct (evaluateTextOrEmpty el0) eqn:H0; [|done].
    intros [= <- <-].
    split; [apply trimmed_null_text|by eapply evaluateTextOrEmpty_trimmed].
  - destruct (evaluateTextOrEmpty el0) eqn:H0; [|done].
    destruct (evaluateTextOrEmpty el1) eqn:H1; [|done].
    intros [= <- <-]. split; by eapply evaluateTextOrEmpty_trimmed.
Qed.

Lemma readEducationDetails_trimmed (detailsElements : list Node) a b :
  readEducationDetails detailsElements = Ok (a, b) →
  trimmed a ∧ trimmed b.
Proof.
  unfold readEducationDetails, mbind, result_bind, mret, result_ret.
  destruct (detailsElements !! 0) as [el0|];
    [destruct (evaluateTextOrEmpty el0) as [diploma|] eqn:H0; [|done]|];
    (destruct (detailsElements !! 1) as [el1|];
     [destruct (evaluateTextOrEmpty el1) as [duration|] eqn:H1; [|done]|]);
    intros [= <- <-]; split;
    first [by eapply evaluateTextOrEmpty_trimmed|apply trimmed_nil].
Qed.

Lemma extractExperience_trimmed profileUrl sel (item : Node) record :
  extractExperience profileUrl sel item = Ok record →
  map_Forall trimmed_field record.
Proof.
  unfold extractExperience, mbind, result_bind.
  destruct (query item _) as [jobTitleElement|]; [|done].
  pose proof (optional_text_trimmed jobTitleElement) as Htitle.
  destruct (match jobTitleElement with
            | Some el => evaluateTextOrEmpty el
            | None => mret []
            end) as [jobTitle_|]; [|done].
  specialize (Htitle _ eq_refl).
  destruct (query_all item (detailsQuery _ _)) as [detailsElements|]; [|done].
  destruct (readDetails detailsElements) as [[[a b] c]|] eqn:Hdetails; [|done].
  destruct (query_all item _) as [descriptionElements|]; [|done].
  destruct (readDescriptionSkills descriptionElements) as [[d s]|] eqn:Hdesc;
    [|done].
  intros [= <-].
  apply readDetails_trimmed in Hdetails as (? & ? & ?).
  apply readDescriptionSkills_trimmed in Hdesc as (? & ?).
  apply map_Forall_insert_2; [by intros []|].
  repeat (apply map_Forall_insert_2; [by apply trimmed_field_text|]).
  apply map_Forall_empty.
Qed.

Lemma extractEducation_trimmed profileUrl sel (item : Node) record :
  extractEducation profileUrl sel item = Ok record →
  map_Forall trimmed_field record.
Proof.
  unfold extractEducation, mbind, result_bind.
  destruct (query item _) as [institutionElement|]; [|done].
  pose proof (optional_text_trimmed institutionElement) as Hinst.
  destruct (match institutionElement with
            | Some el => evaluateTextOrEmpty el
            | None => mret []
            end) as [institution_|]; [|done].
  specialize (Hinst _ eq_refl).
  destruct (query_all item (detailsQuery _ _)) as [detailsElements|]; [|done].
  destruct (readEducationDetails detailsElements) as [[a b]|] eqn:Hdetails;
    [|done].
  intros [= <-].
  apply readEducationDetails_trimmed in Hdetails as (? & ?).
  apply map_Forall_insert_2; [by intros []|].
  repeat (apply map_Forall_insert_2; [by apply trimmed_field_text|]).
  apply map_Forall_empty.
Qed.

(** Every field of every row but [Profil] holds a trimmed string. *)
Theorem ts_rows_hold_trimmed_text (page : Page) (config : Config) :
  let all := forProfiles page config (profiles config) in
  Forall (map_Forall trimmed_field) (all.1 ++ all.2).
Proof.
  intros all. subst all.
  destruct (forProfiles_Forall
              (λ _ record, map_Forall trimmed_field record)
              (λ _ record, map_Forall trimmed_field record)
              page config (profiles config)) as [HX HE].
  - intros ? ? ?. apply extractExperience_trimmed.
  - intros ? ? ?. apply extractEducation_trimmed.
  - apply Forall_app. split; (eapply Forall_impl; [done|]);
      by intros record (_ & _ & ?).
Qed.
End ts_run.

(** ** On the sample pages *)

Section js_samples.
Import ScraperJs ScraperJsRun.

(** A chunk that is no key, the key in upper case, a chunk of two letters,
    the key again: started, then stopped. *)
Lemma keys_start_then_stop_witness :
  onChunks initial [lit "x"; lit "S"; lit "ss"; lit "s"]
  = Some {| scraperStarted := true; scraperStopped := true |}.
Proof.
  destruct (keys_start_then_stop [lit "x"; lit "S"; lit "ss"; lit "s"])
    as [Hrun _].
  vm_compute in Hrun. exact Hrun.
Defined.



(** The key is pressed while the first of two profiles is scraped, after its
    first item: one outcome with one record, two profiles counted. *)
Lemma stop_flag_halts_run_witness :
  profiles (scrapeAll stop_in_first_url_at_url stop_in_first_url_at_item
              two_pages two_urls)
  = profiles (scrapeAll (λ _, false) stop_in_first_url_at_item two_pages
                {| selectors := selectors two_urls;
                   urls := take 1 (urls two_urls) |})
  ∧ total_profiles (scrapeAll stop_in_first_url_at_url
                      stop_in_first_url_at_item two_pages two_urls) = 2
  ∧ total_experiences
      <$> profiles (scrapeAll stop_in_first_url_at_url
                      stop_in_first_url_at_item two_pages two_urls) = [1].
Proof.
  destruct (stop_flag_halts_run stop_in_first_url_at_url
              stop_in_first_url_at_item two_pages two_urls 1) as [Hrun Htotal].
  - intros i Hi. by replace i with 0 by lia.
  - done.
  - split; [exact Hrun|]. split; [exact Htotal|]. by vm_compute.
Defined.


End js_samples.

Section ts_samples.
Import ScraperTs.

(** The details selector of the sample configuration, and one without a
    child combinator. *)
Lemma detailsQuery_parts_witness :
  detailsQuery (lit "li") (lit "li div > span") = lit "div > span"
  ∧ detailsQuery (lit "li") flat_details = lit "span > ".
Proof.
  destruct (detailsQuery_parts (lit "li") (lit "li div > span") (lit "div"))
    as [Hparts _].
  { right. exists (lit "span").
    exact (indexOf_Some child_combinator (lit "div > span") 3 eq_refl). }
  destruct (detailsQuery_parts (lit "li") flat_details (lit "span"))
    as [_ Hflat].
  { left. split; [|done]. by apply indexOf_None. }
  split.
  - apply (Hparts (lit "li div") (lit "span")).
    exact (indexOf_Some child_combinator (lit "li div > span") 6 eq_refl).
  - apply Hflat. by apply indexOf_None.
Defined.

Lemma detailsQuery_scoped_witness :
  detailsQuery (lit "li") (lit "li div > span") = lit "div > span".
Proof.
  apply (detailsQuery_scoped (lit "li") (lit "div") (lit "span")).
  exact (indexOf_Some child_combinator (lit "li div > span") 6 eq_refl).
Defined.

(** Items selected by [ul > li]. *)
Lemma detailsQuery_item_selector_leaks_witness :
  detailsQuery (lit "ul > li") nested_item_details
  = lit "div > li div > span".
Proof.
  refine (detailsQuery_item_selector_leaks (lit "ul > li") (lit "ul")
            (lit "li") (lit "div > span") (lit "div") _ _).
  - exact (indexOf_Some child_combinator (lit "ul > li") 2 eq_refl).
  - right. exists (lit "span").
    exact (indexOf_Some child_combinator (lit "div > span") 3 eq_refl).
Defined.

(** Three education items, the second one with a title query that
    throws. *)
Lemma education_items_fail_alone_witness :
  length (fst (scrapeEducation (profile_page [engineer; broken_title; analyst])
                 profile_url ts_config [])) = 2
  ∧ snd (scrapeEducation (profile_page [engineer; broken_title; analyst])
           profile_url ts_config [])
    = Ok ([engineer; broken_title; analyst]
            ≫= educationRecords profile_url (education (selectors ts_config))).
Proof.
  destruct (education_items_fail_alone
              (profile_page [engineer; broken_title; analyst])
              (profile_page [engineer; broken_title; analyst])
              profile_url ts_config [engineer; broken_title; analyst])
    as (Hrun & _ & _); [done..|].
  rewrite Hrun. split; [by vm_compute|done].
Defined.

End ts_samples.
